(** * analyze-backtest.py: the backtest verifier

    A shallow embedding of [src/analyze-backtest.py] and the properties of
    its report.  The script reads one JSON document from standard input,
    recomputes the profit and loss of the first trades, compares reported
    aggregates with a tolerance of one cent and prints a report.

    Numbers are the numbers of the Python run time: a JSON integer literal
    is an [int] of unbounded size, any other JSON number is a [float], an
    IEEE 754 binary64 value.  Floats are Rocq's primitive floats, so the
    arithmetic of the model is bit for bit the arithmetic of the script. *)

From Stdlib Require Import ZArith String List Bool Lia Floats Sorted.
Import ListNotations.

Local Open Scope Z_scope.

(** ** Exceptions and results *)

(** The exceptions the script can raise on a well-typed record:
    [OverflowError], an [int] that is too large for a [float], and
    [UnicodeEncodeError], a text that standard output cannot encode. *)
Inductive exn : Set :=
| OverflowError
| UnicodeEncodeError.

Inductive result (A : Type) : Type :=
| Ok (a : A)
| Raise (e : exn).

Arguments Ok {A} a.
Arguments Raise {A} e.

Class Monad (m : Type -> Type) : Type := {
  ret : forall {A : Type}, A -> m A;
  bind : forall {A B : Type}, m A -> (A -> m B) -> m B
}.

Declare Scope monad_scope.
Delimit Scope monad_scope with monad.
Notation "x <- c ;; k" := (bind c (fun x => k))
  (at level 61, c at next level, right associativity) : monad_scope.
Notation "' p <- c ;; k" := (bind c (fun x => let p := x in k))
  (at level 61, p pattern, c at next level, right associativity) : monad_scope.
Notation "c ;; k" := (bind c (fun _ => k))
  (at level 61, right associativity) : monad_scope.
Local Open Scope monad_scope.

#[export] Instance result_Monad : Monad result := {
  ret := fun A a => Ok a;
  bind := fun A B c k => match c with Ok a => k a | Raise e => Raise e end
}.

(** ** Python numbers *)

Inductive num : Type :=
| Int (z : Z)
| Flt (f : float).

(** [float(z)]: the nearest binary64 value, ties to even; [OverflowError]
    when that value is not finite. *)
Definition float_of_int (z : Z) : result float :=
  match binary_normalize prec emax z 0 false with
  | S754_infinity _ => Raise OverflowError
  | sf => Ok (SF2Prim sf)
  end.

(** [float(x)] for a number [x]. *)
Definition to_float (x : num) : result float :=
  match x with
  | Int z => float_of_int z
  | Flt f => Ok f
  end.

(** A binary arithmetic operator: exact on two ints, otherwise both
    operands are taken to float first. *)
Definition arith (on_int : Z -> Z -> Z) (on_float : float -> float -> float)
  (x y : num) : result num :=
  match x, y with
  | Int a, Int b => Ok (Int (on_int a b))
  | _, _ =>
      f <- to_float x ;;
      g <- to_float y ;;
      ret (Flt (on_float f g))
  end.

Definition add : num -> num -> result num := arith Z.add PrimFloat.add.
Definition sub : num -> num -> result num := arith Z.sub PrimFloat.sub.
Definition mul : num -> num -> result num := arith Z.mul PrimFloat.mul.

(** [abs(x)] keeps the type of its argument. *)
Definition abs (x : num) : num :=
  match x with
  | Int z => Int (Z.abs z)
  | Flt f => Flt (PrimFloat.abs f)
  end.

(** Comparison.  Python compares an int with a float by value, without
    rounding the int; [None] is "unordered", the answer when a NaN is
    involved. *)
Definition compare_int_float (z : Z) (f : float) : option comparison :=
  match Prim2SF f with
  | S754_nan => None
  | S754_infinity s => Some (if s then Gt else Lt)
  | S754_zero _ => Some (z ?= 0)
  | S754_finite s m e =>
      let v := if s then Zneg m else Zpos m in
      Some (if 0 <=? e then z ?= v * 2 ^ e else z * 2 ^ (- e) ?= v)
  end.

Definition compare_float (f g : float) : option comparison :=
  match PrimFloat.compare f g with
  | FEq => Some Eq
  | FLt => Some Lt
  | FGt => Some Gt
  | FNotComparable => None
  end.

Definition compare (x y : num) : option comparison :=
  match x, y with
  | Int a, Int b => Some (a ?= b)
  | Int a, Flt g => compare_int_float a g
  | Flt f, Int b => option_map CompOpp (compare_int_float b f)
  | Flt f, Flt g => compare_float f g
  end.

(** [x < y], [x > y], [x == y], [x <= y], [x >= y]: all false on
    unordered operands. *)
Definition lt (x y : num) : bool :=
  match compare x y with Some Lt => true | _ => false end.
Definition gt (x y : num) : bool :=
  match compare x y with Some Gt => true | _ => false end.
Definition eq (x y : num) : bool :=
  match compare x y with Some Eq => true | _ => false end.
Definition le (x y : num) : bool :=
  match compare x y with Some (Lt | Eq) => true | _ => false end.
Definition ge (x y : num) : bool :=
  match compare x y with Some (Gt | Eq) => true | _ => false end.

Definition is_nan (x : num) : bool :=
  match x with
  | Int _ => false
  | Flt f => PrimFloat.is_nan f
  end.

(** ** The input record

    [json.load] yields a dict; every field is read with [.get(key, default)],
    so a field is either present with a value of its type or absent. *)

Record Trade : Type := mkTrade {
  entryPrice : option num;
  exitPrice : option num;
  size : option num;
  side : option string;
  fees : option num;
  slippage : option num;
  pnl : option num
}.

Record Performance : Type := mkPerformance {
  winRate : option num;
  sharpe : option num
}.

Record BacktestResult : Type := mkBacktestResult {
  initialEquity : option num;
  finalEquity : option num;
  totalReturnPct : option num;
  maxDrawdown : option num;
  trades : option (list Trade);
  equityCurve : option (list num);
  performance : option Performance
}.

(** A [str] is kept as the bytes of its UTF-8 encoding, which is how it
    reaches standard output.  A JSON escape such as [\ud800] gives a [str]
    with a lone surrogate; a surrogate is kept as the three bytes that the
    [surrogatepass] handler gives it, [ED A0..BF 80..BF].  In UTF-8 the
    byte [ED] only ever starts a character, so a string has a surrogate
    exactly when it has an [ED] followed by a byte from [A0] on. *)
Fixpoint encodable (s : string) : bool :=
  match s with
  | EmptyString => true
  | String c s' =>
      match s' with
      | EmptyString => true
      | String c' _ =>
          negb ((Ascii.nat_of_ascii c =? 237)%nat && (160 <=? Ascii.nat_of_ascii c')%nat)
          && encodable s'
      end
  end.

(** [d.get(key, default)] *)
Definition get {A : Type} (field : option A) (default : A) : A :=
  match field with
  | Some v => v
  | None => default
  end.

(** The empty dict [{}], the default of [performance]. *)
Definition no_performance : Performance := mkPerformance None None.

(** ** The report

    One constructor per [print] call of the script.  A number that the
    script renders with a fixed-point format is kept as the float that is
    rendered; the digits themselves are not modelled. *)

Inductive issue : Type :=
| ExtremeReturn (pct : float)
| UnusualWinRate (pct : float)
| NoTrades
| ExtremeDrawdown (pct : float)
| NoFees.

Inductive line : Type :=
| Rule
| Banner
| SummaryHeader
| InitialEquity (v : float)
| FinalEquity (v : float)
| TotalReturn (v : float)
| TotalTrades (n : nat)
| WinRate (v : float)
| MaxDrawdown (v : float)
| SharpeRatio (v : float)
| PnlHeader
| Mismatch (number : nat)
| MismatchDetail (calculated reported diff : float)
| TradeHeader (number : nat) (side : string)
| TradeSizes (size entry exit : float)
| TradePnl (raw fees net : float)
| TradeReported (reported : float) (ok : bool)
| TradeEquity (equity : float)
| AllVerified
| FoundMismatches (errors : nat)
| CurveHeader
| CurvePoints (n : nat)
| CurveStart (v : float)
| CurveEnd (v : float)
| CurveExpected (v : float)
| CurveMatches
| CurveMismatch
| RealismHeader
| ReturnReasonable (v : float)
| WinRateReasonable (v : float)
| TradesGenerated (n : nat)
| DrawdownReasonable (v : float)
| FeesDeducted (v : float)
| IssuesFound
| IssueLine (i : issue)
| AllChecksPassed
| ClosingRule.

(** A line can be written when its text can be encoded; standard output
    is a UTF-8 stream with the strict error handler.  The one text of the
    report that comes from the document is the side of a trade; everything
    else is a literal of the script or a formatted number. *)
Definition printable (l : line) : bool :=
  match l with
  | TradeHeader _ side => encodable side
  | _ => true
  end.

(** ** The process

    What a Python process can touch: the parsed document, standard output,
    standard error, the file system and the network.  A computation is a
    state transformer over that, which may stop with an exception; what
    was printed before the exception stays printed. *)

Record World : Type := mkWorld {
  document : BacktestResult;
  stdout : list line;
  stderr : list exn;
  files : list (string * string);
  network : list string
}.

(** The process at its start, with the document on standard input. *)
Definition boot (d : BacktestResult) : World := mkWorld d [] [] [] [].

(** The world after more lines on standard output. *)
Definition emit (w : World) (out : list line) : World :=
  mkWorld (document w) (stdout w ++ out) (stderr w) (files w) (network w).

Definition M (A : Type) : Type := World -> result A * World.

#[export] Instance M_Monad : Monad M := {
  ret := fun A a w => (Ok a, w);
  bind := fun A B c k w =>
    match c w with
    | (Ok a, w') => k a w'
    | (Raise e, w') => (Raise e, w')
    end
}.

(** The operations of the process. *)
Definition load : M BacktestResult :=
  fun w => (Ok (document w), w).

(** [print(text)]: the text is encoded as a whole before any of it is
    written, so a line that cannot be encoded leaves no trace on standard
    output. *)
Definition print (l : line) : M unit :=
  fun w =>
    if printable l then (Ok tt, emit w [l])
    else (Raise UnicodeEncodeError, w).

(** Operations that a process has and the script does not use: assigning
    into the document, writing a file, sending over a connection. *)
Definition store (d : BacktestResult) : M unit :=
  fun w => (Ok tt, mkWorld d (stdout w) (stderr w) (files w) (network w)).

Definition write_file (path text : string) : M unit :=
  fun w =>
    (Ok tt,
     mkWorld (document w) (stdout w) (stderr w) (files w ++ [(path, text)])
       (network w)).

Definition send (request : string) : M unit :=
  fun w =>
    (Ok tt,
     mkWorld (document w) (stdout w) (stderr w) (files w)
       (network w ++ [request])).

Definition lift {A : Type} (r : result A) : M A :=
  fun w => (r, w).

(** A replacement field of a format string with a fixed-point
    presentation type, [{x:.2f}]: the argument goes through [float(x)]. *)
Definition fmt (x : num) : M float := lift (to_float x).

(** The exit status of the interpreter: 0 after a normal end, 1 after an
    uncaught exception. *)
Definition exit_status {A : Type} (r : result A) : Z :=
  match r with
  | Ok _ => 0
  | Raise _ => 1
  end.

(** [for x in xs: body], threading the variables the body assigns. *)
Fixpoint for_each {A S : Type} (body : A -> S -> M S) (xs : list A) (s : S)
  : M S :=
  match xs with
  | [] => ret s
  | x :: xs' => s' <- body x s ;; for_each body xs' s'
  end.

(** [enumerate(xs)] *)
Definition enumerate {A : Type} (xs : list A) : list (nat * A) :=
  combine (seq 0 (length xs)) xs.

(** [sum(xs)]: addition from the left, starting from the int 0.  (CPython
    3.12 and later also compensate the rounding error of float items; the
    model keeps the plain left-to-right sum.) *)
Definition sum (xs : list num) : result num :=
  fold_left (fun acc x => a <- acc ;; add a x) xs (Ok (Int 0)).

(** ** The script *)

Set Warnings "-inexact-float".

(** The tolerance of one cent, the literal [0.01]. *)
Definition tolerance : num := Flt 0.01.

(** Lines 7 to 24: banner and summary. *)
Definition print_summary (data : BacktestResult) (initial_equity final_equity
  total_return_pct : num) (trades : list Trade) (performance : Performance)
  : M unit :=
  print SummaryHeader ;;
  v <- fmt initial_equity ;; print (InitialEquity v) ;;
  v <- fmt final_equity ;; print (FinalEquity v) ;;
  v <- fmt total_return_pct ;; print (TotalReturn v) ;;
  print (TotalTrades (length trades)) ;;
  pct <- lift (mul (get (winRate performance) (Int 0)) (Int 100)) ;;
  v <- fmt pct ;; print (WinRate v) ;;
  v <- fmt (get (maxDrawdown data) (Int 0)) ;; print (MaxDrawdown v) ;;
  v <- fmt (get (sharpe performance) (Int 0)) ;; print (SharpeRatio v).

(** Lines 44 to 47: the closing-side rule. *)
Definition raw_pnl (side : string) (entry exit size : num) : result num :=
  if String.eqb side "SELL" then
    d <- sub exit entry ;; mul d size
  else
    d <- sub entry exit ;; mul d size.

(** Line 49. *)
Definition net_pnl (raw_pnl fees : num) : result num :=
  sub raw_pnl fees.

(** Lines 32 to 66: the body of the loop over the sampled trades.  The
    loop assigns [equity] and [errors]. *)
Definition check_trade (it : nat * Trade) (vars : num * nat) : M (num * nat) :=
  let '(i, trade) := it in
  let '(equity, errors) := vars in
  let entry := get (entryPrice trade) (Int 0) in
  let exit := get (exitPrice trade) (Int 0) in
  let size := get (size trade) (Int 0) in
  let side := get (side trade) "BUY"%string in
  let fees := get (fees trade) (Int 0) in
  let slippage := get (slippage trade) (Int 0) in
  let reported_pnl := get (pnl trade) (Int 0) in
  raw_pnl <- lift (raw_pnl side entry exit size) ;;
  net_pnl <- lift (net_pnl raw_pnl fees) ;;
  equity <- lift (add equity net_pnl) ;;
  d <- lift (sub net_pnl reported_pnl) ;;
  let diff := abs d in
  let match_ := lt diff tolerance in
  errors <-
    (if negb match_ then
       print (Mismatch (i + 1)) ;;
       c <- fmt net_pnl ;; r <- fmt reported_pnl ;; d <- fmt diff ;;
       print (MismatchDetail c r d) ;;
       ret (errors + 1)%nat
     else ret errors) ;;
  (if (i <? 3)%nat then
     print (TradeHeader (i + 1) side) ;;
     s <- fmt size ;; en <- fmt entry ;; ex <- fmt exit ;;
     print (TradeSizes s en ex) ;;
     r <- fmt raw_pnl ;; f <- fmt fees ;; n <- fmt net_pnl ;;
     print (TradePnl r f n) ;;
     r <- fmt reported_pnl ;;
     print (TradeReported r match_) ;;
     e <- fmt equity ;;
     print (TradeEquity e)
   else ret tt) ;;
  ret (equity, errors).

(** Lines 27 to 71: the P&L verification. *)
Definition pnl_loop (initial_equity : num) (trades : list Trade)
  : M (num * nat) :=
  for_each check_trade (enumerate (firstn 10 trades)) (initial_equity, 0%nat).

Definition verify_pnl (initial_equity : num) (trades : list Trade) : M unit :=
  print PnlHeader ;;
  '(equity, errors) <- pnl_loop initial_equity trades ;;
  if (errors =? 0)%nat then print AllVerified
  else print (FoundMismatches errors).

(** Lines 74 to 85: the equity curve verification. *)
Definition verify_equity_curve (data : BacktestResult) (final_equity : num)
  : M unit :=
  print CurveHeader ;;
  let equity_curve := get (equityCurve data) [] in
  match equity_curve with
  | [] => ret tt
  | first :: _ =>
      let last := List.last equity_curve first in
      print (CurvePoints (length equity_curve)) ;;
      v <- fmt first ;; print (CurveStart v) ;;
      v <- fmt last ;; print (CurveEnd v) ;;
      v <- fmt final_equity ;; print (CurveExpected v) ;;
      d <- lift (sub last final_equity) ;;
      if lt (abs d) tolerance then print CurveMatches
      else print CurveMismatch
  end.

(** Line 114. *)
Definition total_fees (trades : list Trade) : result num :=
  sum (map (fun t => get (fees t) (Int 0)) trades).

(** Lines 88 to 118: the realism checks; the value is the list [issues]. *)
Definition realism_check (data : BacktestResult) (total_return_pct : num)
  (trades : list Trade) (performance : Performance) : M (list issue) :=
  print RealismHeader ;;
  let issues := [] in
  issues <-
    (if gt (abs total_return_pct) (Int 100) then
       v <- fmt total_return_pct ;; ret (issues ++ [ExtremeReturn v])
     else
       v <- fmt total_return_pct ;; print (ReturnReasonable v) ;; ret issues) ;;
  win_rate <- lift (mul (get (winRate performance) (Int 0)) (Int 100)) ;;
  issues <-
    (if lt win_rate (Int 20) || gt win_rate (Int 80) then
       v <- fmt win_rate ;; ret (issues ++ [UnusualWinRate v])
     else
       v <- fmt win_rate ;; print (WinRateReasonable v) ;; ret issues) ;;
  issues <-
    (if (length trades =? 0)%nat then ret (issues ++ [NoTrades])
     else print (TradesGenerated (length trades)) ;; ret issues) ;;
  let max_dd := get (maxDrawdown data) (Int 0) in
  issues <-
    (if gt max_dd (Int 50) then
       v <- fmt max_dd ;; ret (issues ++ [ExtremeDrawdown v])
     else
       v <- fmt max_dd ;; print (DrawdownReasonable v) ;; ret issues) ;;
  total_fees <- lift (total_fees trades) ;;
  issues <-
    (if eq total_fees (Int 0) then ret (issues ++ [NoFees])
     else
       v <- fmt total_fees ;; print (FeesDeducted v) ;; ret issues) ;;
  ret issues.

(** Lines 120 to 127: the final summary and the closing rule. *)
Definition final_summary (issues : list issue) : M unit :=
  match issues with
  | [] => print AllChecksPassed
  | _ :: _ =>
      print IssuesFound ;;
      for_each (fun i (_ : unit) => print (IssueLine i)) issues tt
  end ;;
  print ClosingRule.

(** Lines 7 to 127: the script after [json.load]. *)
Definition report (data : BacktestResult) : M unit :=
  print Rule ;; print Banner ;; print Rule ;;
  let initial_equity := get (initialEquity data) (Int 0) in
  let final_equity := get (finalEquity data) (Int 0) in
  let total_return_pct := get (totalReturnPct data) (Int 0) in
  let trades := get (trades data) [] in
  let performance := get (performance data) no_performance in
  print_summary data initial_equity final_equity total_return_pct trades
    performance ;;
  verify_pnl initial_equity trades ;;
  verify_equity_curve data final_equity ;;
  issues <- realism_check data total_return_pct trades performance ;;
  final_summary issues.

(** The whole script. *)
Definition main : M unit :=
  data <- load ;;
  report data.

(** A run on a document, from an empty standard output: the outcome and
    the report. *)
Definition run (d : BacktestResult) : result unit * list line :=
  let '(r, w) := main (boot d) in (r, stdout w).

(** The report of a computation started on an empty standard output. *)
Definition exec {A : Type} (m : M A) (d : BacktestResult)
  : result A * list line :=
  let '(r, w) := m (boot d) in (r, stdout w).

(** The interpreter around a script: an uncaught exception is reported by
    a traceback on standard error and ends the process with status 1. *)
Definition python (script : M unit) (w : World) : Z * World :=
  match script w with
  | (Ok _, w') => (0, w')
  | (Raise e, w') =>
      (1,
       mkWorld (document w') (stdout w') (stderr w' ++ [e]) (files w')
         (network w'))
  end.

(** * Properties *)

(** ** Computations that only print

    [writes m r out]: from every world, [m] ends with [r], appends [out]
    to standard output and leaves everything else alone. *)

Definition writes {A : Type} (m : M A) (r : result A) (out : list line) : Prop :=
  forall w, m w = (r, emit w out).

Definition writer {A : Type} (m : M A) : Prop :=
  exists r out, writes m r out.


(** ** The quantities of the specification *)

(** The net profit of a closed long position,
    [(exitPrice - entryPrice) * size - fees], and of a closed short
    position, [(entryPrice - exitPrice) * size - fees], on the fields of a
    trade with their defaults. *)
Definition long_net_pnl (t : Trade) : result num :=
  d <- sub (get (exitPrice t) (Int 0)) (get (entryPrice t) (Int 0)) ;;
  raw <- mul d (get (size t) (Int 0)) ;;
  sub raw (get (fees t) (Int 0)).

Definition short_net_pnl (t : Trade) : result num :=
  d <- sub (get (entryPrice t) (Int 0)) (get (exitPrice t) (Int 0)) ;;
  raw <- mul d (get (size t) (Int 0)) ;;
  sub raw (get (fees t) (Int 0)).

(** The net P&L that an iteration of the loop computes for a trade. *)
Definition recomputed_net_pnl (t : Trade) : result num :=
  raw <- raw_pnl (get (side t) "BUY"%string) (get (entryPrice t) (Int 0))
           (get (exitPrice t) (Int 0)) (get (size t) (Int 0)) ;;
  net_pnl raw (get (fees t) (Int 0)).

(** [abs(net_pnl - reported_pnl)] for a trade. *)
Definition recomputed_diff (t : Trade) : result num :=
  net <- recomputed_net_pnl t ;;
  d <- sub net (get (pnl t) (Int 0)) ;;
  ret (abs d).

(** A trade is flagged when its difference is not below the tolerance. *)
Definition flagged (t : Trade) : bool :=
  match recomputed_diff t with
  | Ok diff => negb (lt diff tolerance)
  | Raise _ => false
  end.

(** The initial equity plus the net P&L of the given trades, added one
    after the other in the order of the list. *)
Definition equity_after (initial_equity : num) (ts : list Trade) : result num :=
  fold_left
    (fun acc t => e <- acc ;; net <- recomputed_net_pnl t ;; add e net)
    ts (Ok initial_equity).

(** The same trade with another [slippage] field. *)
Definition set_slippage (s : option num) (t : Trade) : Trade :=
  mkTrade (entryPrice t) (exitPrice t) (size t) (side t) (fees t) s (pnl t).

(** The same document with another [equityCurve] field. *)
Definition set_equityCurve (c : option (list num)) (d : BacktestResult)
  : BacktestResult :=
  mkBacktestResult (initialEquity d) (finalEquity d) (totalReturnPct d)
    (maxDrawdown d) (trades d) c (performance d).

(** The first line of a detailed per-trade block. *)
Definition is_trade_header (l : line) : bool :=
  match l with
  | TradeHeader _ _ => true
  | _ => false
  end.

Definition trade_header (it : nat * Trade) : line :=
  TradeHeader (fst it + 1) (get (side (snd it)) "BUY"%string).

Definition is_mismatch (l : line) : bool :=
  match l with
  | Mismatch _ => true
  | _ => false
  end.

(** The document with no field at all, [{}]. *)
Definition empty_document : BacktestResult :=
  mkBacktestResult None None None None None None None.

(** The lines that an iteration of the loop can print. *)
Definition is_loop_line (l : line) : bool :=
  match l with
  | Mismatch _ | MismatchDetail _ _ _ | TradeHeader _ _ | TradeSizes _ _ _
  | TradePnl _ _ _ | TradeReported _ _ | TradeEquity _ => true
  | _ => false
  end.

(** ** Sample inputs *)

(** Scenario A of the specification: one long trade, closed by a SELL. *)
Definition scenario_A_trade : Trade :=
  mkTrade (Some (Int 100)) (Some (Int 110)) (Some (Int 1))
    (Some "SELL"%string) (Some (Flt 0.5)) None (Some (Flt 9.5)).

Definition scenario_A : BacktestResult :=
  mkBacktestResult (Some (Int 1000)) (Some (Int 1050)) (Some (Int 5))
    (Some (Int 3)) (Some [scenario_A_trade]) (Some [Int 1000; Int 1050])
    (Some (mkPerformance (Some (Flt 0.6)) (Some (Flt 1.2)))).

(** Scenario B: the same with a reported P&L of 5.0. *)
Definition scenario_B_trade : Trade :=
  mkTrade (Some (Int 100)) (Some (Int 110)) (Some (Int 1))
    (Some "SELL"%string) (Some (Flt 0.5)) None (Some (Flt 5.0)).

Definition scenario_B : BacktestResult :=
  mkBacktestResult (Some (Int 1000)) (Some (Int 1050)) (Some (Int 5))
    (Some (Int 3)) (Some [scenario_B_trade]) (Some [Int 1000; Int 1050])
    (Some (mkPerformance (Some (Flt 0.6)) (Some (Flt 1.2)))).

(** Scenario C: no trade, a drawdown of 60, a win rate of 0.9. *)
Definition scenario_C : BacktestResult :=
  mkBacktestResult None None None (Some (Int 60)) (Some []) None
    (Some (mkPerformance (Some (Flt 0.9)) None)).

(** Scenario D: scenario A without the [equityCurve] key. *)
Definition scenario_D : BacktestResult := set_equityCurve None scenario_A.

(** Twelve trades: ten that pay no fee and report the right P&L, then two
    that pay a fee of 3 and report a P&L of 0. *)
Definition free_trade : Trade :=
  mkTrade (Some (Int 100)) (Some (Int 110)) (Some (Int 1))
    (Some "SELL"%string) (Some (Int 0)) None (Some (Int 10)).

Definition late_trade : Trade :=
  mkTrade (Some (Int 100)) (Some (Int 110)) (Some (Int 1))
    (Some "SELL"%string) (Some (Int 3)) None (Some (Int 0)).

Definition twelve_trades : list Trade :=
  repeat free_trade 10 ++ [late_trade; late_trade].

(** [{"entryPrice": 1e308, "exitPrice": -1e308, "size": 0}]: the price
    difference overflows to infinity, and infinity times zero is a NaN. *)
Definition overflowing_trade : Trade :=
  mkTrade (Some (Flt 1e308)) (Some (Flt (-1e308))) (Some (Int 0))
    None None None None.

(** [emits P m]: [m] only prints, and every line it prints satisfies [P],
    whatever its outcome. *)
Definition emits (P : line -> bool) {A : Type} (m : M A) : Prop :=
  exists r out, writes m r out /\ forallb P out = true.

Definition is_all_checks_passed (l : line) : bool :=
  match l with
  | AllChecksPassed => true
  | _ => false
  end.

Definition before_final_summary (l : line) : bool :=
  negb (is_all_checks_passed l).

(** ** The realism checks as the specification words them *)

Definition b2n (b : bool) : nat := if b then 1%nat else 0%nat.

(** The pass condition of each check. *)
Definition return_passes (total_return_pct : num) : bool :=
  le (abs total_return_pct) (Int 100).

Definition win_rate_passes (win_rate : num) : bool :=
  le (Int 20) win_rate && le win_rate (Int 80).

Definition trade_count_passes (ts : list Trade) : bool :=
  (0 <? length ts)%nat.

Definition drawdown_passes (max_dd : num) : bool :=
  le max_dd (Int 50).

Definition fees_pass (total : num) : bool :=
  negb (eq total (Int 0)).

(** The number of checks whose pass condition does not hold. *)
Definition failed_checks (total_return_pct win_rate : num) (ts : list Trade)
  (max_dd total : num) : nat :=
  (b2n (negb (return_passes total_return_pct)) +
   b2n (negb (win_rate_passes win_rate)) +
   b2n (negb (trade_count_passes ts)) +
   b2n (negb (drawdown_passes max_dd)) +
   b2n (negb (fees_pass total)))%nat.

(** The number of checks whose test in the script fires. *)
Definition fired_checks (total_return_pct win_rate : num) (ts : list Trade)
  (max_dd total : num) : nat :=
  (b2n (gt (abs total_return_pct) (Int 100)) +
   b2n (lt win_rate (Int 20) || gt win_rate (Int 80)) +
   b2n (length ts =? 0)%nat +
   b2n (gt max_dd (Int 50)) +
   b2n (eq total (Int 0)))%nat.

(** The [winRate] of a document, when both the [performance] mapping and
    the key are there. *)
Definition explicit_win_rate (d : BacktestResult) : option num :=
  match performance d with
  | Some p => winRate p
  | None => None
  end.

(** Scenario A with a win rate one unit in the last place below 0.2. *)
Definition just_below_20_percent : BacktestResult :=
  mkBacktestResult (Some (Int 1000)) (Some (Int 1050)) (Some (Int 5))
    (Some (Int 3)) (Some [scenario_A_trade]) (Some [Int 1000; Int 1050])
    (Some (mkPerformance (Some (Flt 0.19999999999999998)) (Some (Flt 1.2)))).

(** ** Sides that can be printed

    The sides that a report prints are those of the first three trades. *)
Definition printable_sides (d : BacktestResult) : bool :=
  forallb (fun t => encodable (get (side t) "BUY"%string))
    (firstn 3 (get (trades d) [])).

(** The [str] with the one code point U+D800, a lone surrogate. *)
Definition lone_surrogate : string :=
  String (Ascii.ascii_of_nat 237)
    (String (Ascii.ascii_of_nat 160)
       (String (Ascii.ascii_of_nat 128) EmptyString)).

(** [{"trades": [{"side": "\ud800"}]}] *)
Definition surrogate_side : BacktestResult :=
  mkBacktestResult None None None None
    (Some [mkTrade None None None (Some lone_surrogate) None None None])
    None None.

(** ** Sizes

    An int converts to a float when its magnitude is below [2 ^ 1023].
    A document is well sized when its ints stay far enough below that for
    every quantity the script derives from them to convert. *)

Definition float_limit : Z := Eval vm_compute in 2 ^ 1023.

Definition int_limit : Z := Eval vm_compute in 2 ^ 500.

(** The magnitude of an int is at most [B]; a float has no such bound. *)
Definition mag (B : Z) (x : num) : Prop :=
  match x with
  | Int z => Z.abs z <= B
  | Flt _ => True
  end.

Definition small (x : num) : bool :=
  match x with
  | Int z => Z.abs z <=? int_limit
  | Flt _ => true
  end.

Definition small_field (f : option num) : bool :=
  match f with
  | Some x => small x
  | None => true
  end.

(** [slippage] is never used, so its size does not matter. *)
Definition small_trade (t : Trade) : bool :=
  small_field (entryPrice t) && small_field (exitPrice t) &&
  small_field (size t) && small_field (fees t) && small_field (pnl t).

Definition well_sized (d : BacktestResult) : bool :=
  small_field (initialEquity d) && small_field (finalEquity d) &&
  small_field (totalReturnPct d) && small_field (maxDrawdown d) &&
  forallb small_trade (get (trades d) []) &&
  (Z.of_nat (length (get (trades d) [])) <=? int_limit) &&
  forallb small (get (equityCurve d) []) &&
  small_field (winRate (get (performance d) no_performance)) &&
  small_field (sharpe (get (performance d) no_performance)).

(** The bound on a recomputed net P&L: [(L + L) * L + L]. *)
Definition net_limit : Z := (int_limit + int_limit) * int_limit + int_limit.

(** [yields m Q]: [m] only prints, completes, and its value satisfies [Q]. *)
Definition yields {A : Type} (m : M A) (Q : A -> Prop) : Prop :=
  exists a out, writes m (Ok a) out /\ Q a.

Definition is_infinity (x : spec_float) : bool :=
  match x with
  | S754_infinity _ => true
  | _ => false
  end.

(** [{"initialEquity": 10 ** 400}]: an int beyond the range of floats. *)
Definition huge_equity : BacktestResult :=
  mkBacktestResult (Some (Int (10 ^ 400))) None None None None None None.

(** ** Defaults made explicit *)




(** ** The shape of a report *)

(** The lines that frame a report: the banner, the header of each section
    and the closing rule. *)
Definition is_frame_line (l : line) : bool :=
  match l with
  | Rule | Banner | SummaryHeader | PnlHeader | CurveHeader | RealismHeader
  | ClosingRule => true
  | _ => false
  end.

Definition is_body_line (l : line) : bool := negb (is_frame_line l).

(** The closing message of the P&L verification. *)
Definition is_verdict (l : line) : bool :=
  match l with
  | AllVerified | FoundMismatches _ => true
  | _ => false
  end.

Definition is_trade_equity (l : line) : bool :=
  match l with
  | TradeEquity _ => true
  | _ => false
  end.

(** The position of the check that raises an issue. *)
Definition issue_rank (i : issue) : nat :=
  match i with
  | ExtremeReturn _ => 0
  | UnusualWinRate _ => 1
  | NoTrades => 2
  | ExtremeDrawdown _ => 3
  | NoFees => 4
  end%nat.

(** A trade all of whose numbers are ints. *)
Definition int_trade (side : option string) (entry exit size fees pnl : Z)
  : Trade :=
  mkTrade (Some (Int entry)) (Some (Int exit)) (Some (Int size)) side
    (Some (Int fees)) None (Some (Int pnl)).

(** Its net P&L in exact integer arithmetic. *)
Definition int_net_pnl (side : option string) (entry exit size fees : Z) : Z :=
  (if String.eqb (get side "BUY"%string) "SELL" then exit - entry
   else entry - exit) * size - fees.

(** A document that has only a final equity and an equity curve. *)
Definition curve_document (final_equity : num) (curve : list num)
  : BacktestResult :=
  mkBacktestResult None (Some final_equity) None None None (Some curve) None.

(** ** Figures shown more than once

    Three figures of the document are printed by the summary and again by
    the realism checks: the total return, the win rate and the maximum
    drawdown. *)
Inductive figure : Set := TheReturn | TheWinRate | TheDrawdown.

Definition figure_eqb (a b : figure) : bool :=
  match a, b with
  | TheReturn, TheReturn | TheWinRate, TheWinRate
  | TheDrawdown, TheDrawdown => true
  | _, _ => false
  end.

(** The figure that a line shows, with the value shown. *)
Definition shown (l : line) : option (figure * float) :=
  match l with
  | TotalReturn v | ReturnReasonable v | IssueLine (ExtremeReturn v) =>
      Some (TheReturn, v)
  | WinRate v | WinRateReasonable v | IssueLine (UnusualWinRate v) =>
      Some (TheWinRate, v)
  | MaxDrawdown v | DrawdownReasonable v | IssueLine (ExtremeDrawdown v) =>
      Some (TheDrawdown, v)
  | _ => None
  end.

Definition shows_no_figure (l : line) : bool :=
  match shown l with
  | None => true
  | Some _ => false
  end.

Definition figures (out : list line) : list (figure * float) :=
  flat_map (fun l => match shown l with Some p => [p] | None => [] end) out.

(** The values that a report shows for a figure, in the order of its
    lines. *)
Definition values_of (k : figure) (out : list line) : list float :=
  map snd (filter (fun p => figure_eqb (fst p) k) (figures out)).
(** ** Results *)

Lemma result_bind_assoc : forall (A B C : Type) (c : result A)
  (k : A -> result B) (h : B -> result C),
  (y <- (x <- c ;; k x) ;; h y) = (x <- c ;; y <- k x ;; h y).
Proof. intros A B C [a | e] k h; reflexivity. Qed.

(** ** Numbers: order and NaN *)

Lemma SFcompare_refl : forall x, x <> S754_nan -> SFcompare x x = Some Eq.
Proof.
  intros [s | s | | s m e] H; cbn.
  - reflexivity.
  - now destruct s.
  - contradiction.
  - now destruct s; rewrite Z.compare_refl, Pos.compare_cont_refl.
Qed.

Lemma SFcompare_None : forall x y,
  SFcompare x y = None <-> x = S754_nan \/ y = S754_nan.
Proof.
  intros x y. split.
  - destruct x as [s | s | | s m e], y as [s' | s' | | s' m' e']; cbn;
      intros H; try discriminate H; auto.
  - intros [-> | ->]; [reflexivity | now destruct x].
Qed.

Lemma is_nan_Prim2SF : forall f,
  PrimFloat.is_nan f = true <-> Prim2SF f = S754_nan.
Proof.
  intros f. unfold PrimFloat.is_nan. rewrite eqb_spec. unfold SFeqb.
  destruct (Prim2SF f) eqn:E; try rewrite SFcompare_refl by discriminate;
    cbn; split; intros H; try discriminate H; reflexivity.
Qed.

Lemma compare_float_None : forall f g,
  compare_float f g = None <->
  PrimFloat.is_nan f = true \/ PrimFloat.is_nan g = true.
Proof.
  intros f g. unfold compare_float. rewrite compare_spec, !is_nan_Prim2SF.
  rewrite <- SFcompare_None.
  destruct (SFcompare (Prim2SF f) (Prim2SF g)) as [[ | | ] |]; cbn;
    split; intros H; try discriminate H; reflexivity.
Qed.

Lemma compare_int_float_None : forall z f,
  compare_int_float z f = None <-> PrimFloat.is_nan f = true.
Proof.
  intros z f. rewrite is_nan_Prim2SF. unfold compare_int_float.
  destruct (Prim2SF f); split; intros H; try discriminate H; reflexivity.
Qed.

(** A comparison is unordered exactly when an operand is a NaN. *)
Lemma compare_None : forall x y,
  compare x y = None <-> is_nan x = true \/ is_nan y = true.
Proof.
  intros [a | f] [b | g]; cbn.
  - split; [discriminate | intros [H | H]; discriminate H].
  - rewrite compare_int_float_None. split; [auto | now intros [H | H]].
  - destruct (compare_int_float b f) eqn:E; cbn.
    + split; [discriminate |]. intros [H | H]; [| discriminate H].
      apply (compare_int_float_None b) in H. congruence.
    + split; [| reflexivity]. intros _. left.
      now apply (compare_int_float_None b).
  - apply compare_float_None.
Qed.

Lemma compare_ordered : forall x y,
  is_nan x = false -> is_nan y = false -> exists c, compare x y = Some c.
Proof.
  intros x y Hx Hy. destruct (compare x y) as [c |] eqn:E; [now exists c |].
  apply compare_None in E. destruct E as [E | E]; congruence.
Qed.

(** On ordered operands [<] and [>=] are complementary, and so are [>]
    and [<=]. *)
Lemma lt_ge : forall x y,
  is_nan x = false -> is_nan y = false -> lt x y = negb (ge x y).
Proof.
  intros x y Hx Hy. unfold lt, ge.
  destruct (compare_ordered x y Hx Hy) as [[ | | ] ->]; reflexivity.
Qed.

Lemma gt_le : forall x y,
  is_nan x = false -> is_nan y = false -> gt x y = negb (le x y).
Proof.
  intros x y Hx Hy. unfold gt, le.
  destruct (compare_ordered x y Hx Hy) as [[ | | ] ->]; reflexivity.
Qed.

(** Against an int the comparison can be read from either side. *)
Lemma compare_int_swap : forall x n,
  compare x (Int n) = option_map CompOpp (compare (Int n) x).
Proof.
  intros [a | f] n; cbn; [| reflexivity].
  now rewrite (Z.compare_antisym n a).
Qed.

Lemma lt_int_le : forall x n,
  is_nan x = false -> lt x (Int n) = negb (le (Int n) x).
Proof.
  intros x n Hx. unfold lt, le. rewrite compare_int_swap.
  destruct (compare_ordered (Int n) x eq_refl Hx) as [[ | | ] ->]; reflexivity.
Qed.

Lemma is_nan_abs : forall x, is_nan (abs x) = is_nan x.
Proof.
  intros [z | f]; cbn; [reflexivity |].
  destruct (PrimFloat.is_nan f) eqn:E.
  - apply is_nan_Prim2SF. rewrite abs_spec.
    apply is_nan_Prim2SF in E. now rewrite E.
  - destruct (PrimFloat.is_nan (PrimFloat.abs f)) eqn:E'; [| reflexivity].
    apply is_nan_Prim2SF in E'. rewrite abs_spec in E'.
    assert (Prim2SF f = S754_nan) as N
      by (destruct (Prim2SF f); try discriminate E'; reflexivity).
    apply is_nan_Prim2SF in N. congruence.
Qed.

(** ** Computations that only print: composition *)

Lemma world_eta : forall w, emit w [] = w.
Proof. intros [d o e f n]. unfold emit. simpl. now rewrite app_nil_r. Qed.

Lemma writes_ret : forall (A : Type) (a : A), writes (ret a) (Ok a) [].
Proof. intros A a w. simpl. now rewrite world_eta. Qed.

Lemma writes_lift : forall (A : Type) (r : result A), writes (lift r) r [].
Proof. intros A r w. unfold lift. now rewrite world_eta. Qed.

Lemma writes_print : forall l,
  printable l = true -> writes (print l) (Ok tt) [l].
Proof. intros l H w. unfold print. now rewrite H. Qed.

Lemma writes_print_error : forall l,
  printable l = false -> writes (print l) (Raise UnicodeEncodeError) [].
Proof. intros l H w. unfold print. now rewrite H, world_eta. Qed.

Lemma emit_emit : forall w o1 o2, emit (emit w o1) o2 = emit w (o1 ++ o2).
Proof. intros w o1 o2. unfold emit. cbn. now rewrite app_assoc. Qed.

Lemma writes_bind_ok : forall (A B : Type) (c : M A) (k : A -> M B) a o1 r o2,
  writes c (Ok a) o1 -> writes (k a) r o2 ->
  writes (x <- c ;; k x) r (o1 ++ o2).
Proof.
  intros A B c k a o1 r o2 Hc Hk w. simpl. rewrite Hc, Hk.
  now rewrite emit_emit.
Qed.

Lemma writes_bind_raise : forall (A B : Type) (c : M A) (k : A -> M B) e o1,
  writes c (Raise e) o1 -> writes (x <- c ;; k x) (Raise e) o1.
Proof. intros A B c k e o1 Hc w. simpl. now rewrite Hc. Qed.

Lemma writes_exec : forall (A : Type) (m : M A) r out d,
  writes m r out -> exec m d = (r, out).
Proof. intros A m r out d H. unfold exec. now rewrite H. Qed.

Lemma writes_fun : forall (A : Type) (m : M A) r1 o1 r2 o2,
  writes m r1 o1 -> writes m r2 o2 -> r1 = r2 /\ o1 = o2.
Proof.
  intros A m r1 o1 r2 o2 H1 H2.
  pose proof (H1 (boot (mkBacktestResult None None None None None None None))) as E1.
  rewrite H2 in E1. simpl in E1. now inversion E1.
Qed.

Lemma writer_ret : forall (A : Type) (a : A), writer (ret a).
Proof. intros. eexists _, _. apply writes_ret. Qed.

Lemma writer_lift : forall (A : Type) (r : result A), writer (lift r).
Proof. intros. eexists _, _. apply writes_lift. Qed.

Lemma writer_print : forall l, writer (print l).
Proof.
  intros l. destruct (printable l) eqn:E; eexists _, _.
  - now apply writes_print.
  - now apply writes_print_error.
Qed.

Lemma writer_fmt : forall x, writer (fmt x).
Proof. intros. apply writer_lift. Qed.

Lemma writer_bind : forall (A B : Type) (c : M A) (k : A -> M B),
  writer c -> (forall a, writer (k a)) -> writer (x <- c ;; k x).
Proof.
  intros A B c k [[a | e] [o1 Hc]] Hk.
  - destruct (Hk a) as [r [o2 Hka]]. eexists _, _.
    eapply writes_bind_ok; eassumption.
  - eexists _, _. eapply writes_bind_raise; eassumption.
Qed.

Lemma writer_for_each : forall (A S : Type) (body : A -> S -> M S) xs s,
  (forall x s', writer (body x s')) -> writer (for_each body xs s).
Proof.
  intros A S body xs. induction xs as [| x xs IH]; intros s Hbody; simpl.
  - apply writer_ret.
  - apply writer_bind; [apply Hbody | intros s'; now apply IH].
Qed.

Create HintDb writer.
#[export] Hint Resolve writer_ret writer_lift writer_print writer_fmt : writer.

(** Decompose a computation into its binds, branches and prints. *)
Ltac writer_steps :=
  repeat first
    [ apply writer_ret | apply writer_print | apply writer_fmt
    | apply writer_lift
    | apply writer_bind; [| intros ?]
    | apply writer_for_each; intros ? ?
    | match goal with
      | |- writer (if ?b then _ else _) => destruct b
      | |- writer (match ?x with _ => _ end) => destruct x
      | |- writer (let '(_, _) := ?x in _) => destruct x
      end ].

Lemma writer_print_summary : forall data ie fe tr ts pf,
  writer (print_summary data ie fe tr ts pf).
Proof. intros. unfold print_summary. writer_steps. Qed.

Lemma writer_check_trade : forall it vars, writer (check_trade it vars).
Proof. intros [i t] [e n]. unfold check_trade. writer_steps. Qed.

Lemma writer_pnl_loop : forall ie ts, writer (pnl_loop ie ts).
Proof.
  intros. unfold pnl_loop. apply writer_for_each. intros.
  apply writer_check_trade.
Qed.

Lemma writer_verify_pnl : forall ie ts, writer (verify_pnl ie ts).
Proof.
  intros. unfold verify_pnl. apply writer_bind; [apply writer_print |].
  intros _. apply writer_bind; [apply writer_pnl_loop |].
  intros [e n]. writer_steps.
Qed.

Lemma writer_verify_equity_curve : forall data fe,
  writer (verify_equity_curve data fe).
Proof. intros. unfold verify_equity_curve. writer_steps. Qed.

Lemma writer_realism_check : forall data tr ts pf,
  writer (realism_check data tr ts pf).
Proof. intros. unfold realism_check. writer_steps. Qed.

Lemma writer_final_summary : forall issues, writer (final_summary issues).
Proof. intros. unfold final_summary. writer_steps. Qed.

#[export] Hint Resolve writer_print_summary writer_check_trade writer_pnl_loop
  writer_verify_pnl writer_verify_equity_curve writer_realism_check
  writer_final_summary : writer.

Lemma main_report : forall w, main w = report (document w) w.
Proof. reflexivity. Qed.

Lemma writer_report : forall data, writer (report data).
Proof.
  intros. unfold report.
  repeat first
    [ solve [auto with writer]
    | apply writer_bind; [solve [auto with writer] | intros ?] ].
Qed.

(** [store], [write_file] and [send] are not of this kind. *)
Lemma store_not_writer : exists d, ~ writer (store d).
Proof.
  exists (mkBacktestResult (Some (Int 1)) None None None None None None).
  intros [r [out H]].
  specialize (H (boot (mkBacktestResult None None None None None None None))).
  discriminate H.
Qed.

Lemma write_file_not_writer : forall path text, ~ writer (write_file path text).
Proof.
  intros path text [r [out H]].
  specialize (H (boot (mkBacktestResult None None None None None None None))).
  discriminate H.
Qed.

Lemma send_not_writer : forall request, ~ writer (send request).
Proof.
  intros request [r [out H]].
  specialize (H (boot (mkBacktestResult None None None None None None None))).
  discriminate H.
Qed.

(** ** One iteration of the loop *)

(** Running a computation backwards from its result: split on the next
    intermediate result or branch, and drop the runs that raise. *)
Ltac next_scrutinee t :=
  lazymatch t with
  | match ?x with Ok _ => _ | Raise _ => _ end => next_scrutinee x
  | (let (_, _) := ?x in _) => next_scrutinee x
  | (if ?b then _ else _) => b
  | (if ?b then _ else _) _ => b
  | _ => t
  end.

Ltac run_step H :=
  unfold fmt, lift, print in H;
  cbn [bind ret M_Monad stdout document printable] in H;
  lazymatch type of H with
  | (Raise _, _) = (Ok _, _) => discriminate H
  | ?lhs = _ =>
      let x := next_scrutinee lhs in
      lazymatch x with
      | (_, _) => fail
      | _ => destruct x eqn:?
      end
  end.

Ltac run_in H := repeat run_step H.

Section CheckTrade.
Variables (i : nat) (trade : Trade) (equity : num) (errors : nat).

Let t_entry := get (entryPrice trade) (Int 0).
Let t_exit := get (exitPrice trade) (Int 0).
Let t_size := get (size trade) (Int 0).
Let t_side := get (side trade) "BUY"%string.
Let t_fees := get (fees trade) (Int 0).
Let t_reported := get (pnl trade) (Int 0).

(** What a completed iteration has computed and printed. *)
Lemma check_trade_inv : forall w equity' errors' w',
  check_trade (i, trade) (equity, errors) w = (Ok (equity', errors'), w') ->
  exists raw net d mis det,
    raw_pnl t_side t_entry t_exit t_size = Ok raw /\
    net_pnl raw t_fees = Ok net /\
    add equity net = Ok equity' /\
    sub net t_reported = Ok d /\
    (if lt (abs d) tolerance
     then errors' = errors /\ mis = []
     else errors' = (errors + 1)%nat /\
          exists c r dd,
            to_float net = Ok c /\ to_float t_reported = Ok r /\
            to_float (abs d) = Ok dd /\
            mis = [Mismatch (i + 1); MismatchDetail c r dd]) /\
    (if (i <? 3)%nat
     then exists s en ex r f n rr e,
            to_float t_size = Ok s /\ to_float t_entry = Ok en /\
            to_float t_exit = Ok ex /\ to_float raw = Ok r /\
            to_float t_fees = Ok f /\ to_float net = Ok n /\
            to_float t_reported = Ok rr /\ to_float equity' = Ok e /\
            det = [TradeHeader (i + 1) t_side; TradeSizes s en ex;
                   TradePnl r f n; TradeReported rr (lt (abs d) tolerance);
                   TradeEquity e]
     else det = []) /\
    w' = emit w (mis ++ det).
Proof.
  intros w equity' errors' w' H. unfold check_trade in H.
  fold t_entry t_exit t_size t_side t_fees t_reported in H.
  run_in H.
  all: inversion H; subst; clear H.
  all: match goal with
       | E : negb _ = true |- _ => apply negb_true_iff in E
       | E : negb _ = false |- _ => apply negb_false_iff in E
       end.
  all: eexists _, _, _, _, _.
  all: repeat (split; [first [eassumption | reflexivity] |]).
  all: match goal with E : lt _ _ = _ |- _ => rewrite E end.
  all: split; [first [ now split | split; [reflexivity |]; eexists _, _, _;
                 repeat (split; [first [eassumption | reflexivity] |]);
                 reflexivity ] |].
  all: split; [first [ reflexivity | eexists _, _, _, _, _, _, _, _;
                 repeat (split; [first [eassumption | reflexivity] |]);
                 reflexivity ] |].
  all: cbn [app]; rewrite ?emit_emit, ?world_eta; reflexivity.
Qed.

End CheckTrade.

Lemma writer_exec : forall (A : Type) (m : M A) d r out,
  writer m -> exec m d = (r, out) -> writes m r out.
Proof.
  intros A m d r out [r' [out' H]] E.
  rewrite (writes_exec _ _ _ _ d H) in E. now inversion E; subst.
Qed.

Lemma exec_world : forall (A : Type) (m : M A) d r out,
  writer m -> exec m d = (r, out) ->
  m (boot d) = (r, emit (boot d) out).
Proof.
  intros A m d r out Hm E. now rewrite (writer_exec _ _ _ _ _ Hm E).
Qed.


(** ** The loop over the sampled trades *)

Lemma for_each_cons_inv : forall (A S : Type) (body : A -> S -> M S) x xs s w s' w',
  for_each body (x :: xs) s w = (Ok s', w') ->
  exists s1 w1, body x s w = (Ok s1, w1) /\ for_each body xs s1 w1 = (Ok s', w').
Proof.
  intros A S body x xs s w s' w' H. cbn [for_each bind M_Monad] in H.
  destruct (body x s w) as [[s1 | e] w1] eqn:E; [| discriminate H].
  now exists s1, w1.
Qed.

Lemma for_each_app : forall (A S : Type) (body : A -> S -> M S) xs ys s w,
  for_each body (xs ++ ys) s w =
  (s1 <- for_each body xs s ;; for_each body ys s1) w.
Proof.
  intros A S body xs. induction xs as [| x xs IH]; intros ys s w.
  - reflexivity.
  - cbn [app for_each bind M_Monad].
    destruct (body x s w) as [[s1 | e] w1]; [apply IH | reflexivity].
Qed.

Lemma enumerate_from_length : forall (A : Type) (xs : list A) n,
  length (combine (seq n (length xs)) xs) = length xs.
Proof. intros. rewrite length_combine, length_seq. apply Nat.min_id. Qed.

Lemma map_snd_combine_seq : forall (A : Type) (xs : list A) n,
  map snd (combine (seq n (length xs)) xs) = xs.
Proof.
  intros A xs. induction xs as [| x xs IH]; intros n; cbn; [reflexivity |].
  now rewrite IH.
Qed.

Lemma map_snd_enumerate : forall (A : Type) (xs : list A),
  map snd (enumerate xs) = xs.
Proof. intros. apply map_snd_combine_seq. Qed.

Lemma nth_error_combine_seq : forall (A : Type) (xs : list A) n k,
  nth_error (combine (seq n (length xs)) xs) k =
  option_map (pair (n + k)%nat) (nth_error xs k).
Proof.
  intros A xs. induction xs as [| x xs IH]; intros n k; cbn.
  - now destruct k.
  - destruct k as [| k]; cbn.
    + now rewrite Nat.add_0_r.
    + rewrite IH. now rewrite Nat.add_succ_r.
Qed.

Lemma nth_error_enumerate : forall (A : Type) (xs : list A) k,
  nth_error (enumerate xs) k = option_map (pair k) (nth_error xs k).
Proof. intros. apply nth_error_combine_seq. Qed.

Lemma In_enumerate : forall (A : Type) (xs : list A) i x,
  In (i, x) (enumerate xs) <-> nth_error xs i = Some x.
Proof.
  intros A xs i x. split.
  - intros H. apply In_nth_error in H. destruct H as [k H].
    rewrite nth_error_enumerate in H.
    destruct (nth_error xs k) eqn:E; cbn in H; [| discriminate H].
    now inversion H; subst.
  - intros H. apply (nth_error_In _ i). rewrite nth_error_enumerate.
    now rewrite H.
Qed.

Lemma equity_after_cons : forall e t ts net e1,
  recomputed_net_pnl t = Ok net -> add e net = Ok e1 ->
  equity_after e (t :: ts) = equity_after e1 ts.
Proof.
  intros e t ts net e1 Hn Ha. unfold equity_after. cbn [fold_left bind result_Monad].
  now rewrite Hn, Ha.
Qed.

(** One completed iteration, in the vocabulary of the specification. *)
Lemma check_trade_step : forall i t equity errors w equity' errors' w',
  check_trade (i, t) (equity, errors) w = (Ok (equity', errors'), w') ->
  exists net diff out,
    recomputed_net_pnl t = Ok net /\
    add equity net = Ok equity' /\
    recomputed_diff t = Ok diff /\
    errors' = (errors + (if flagged t then 1 else 0))%nat /\
    w' = emit w out /\
    filter is_mismatch out = (if flagged t then [Mismatch (i + 1)] else []) /\
    filter is_trade_header out =
      (if (i <? 3)%nat then [trade_header (i, t)] else []) /\
    forallb is_loop_line out = true.
Proof.
  intros i t equity errors w equity' errors' w' H.
  apply check_trade_inv in H.
  destruct H as (raw & net & d & mis & det & Hraw & Hnet & Hadd & Hd & Hmis & Hdet & Hw).
  assert (recomputed_net_pnl t = Ok net) as Hrn.
  { unfold recomputed_net_pnl. rewrite Hraw. exact Hnet. }
  assert (recomputed_diff t = Ok (abs d)) as Hrd.
  { unfold recomputed_diff. rewrite Hrn. cbn. now rewrite Hd. }
  exists net, (abs d), (mis ++ det).
  repeat (split; [assumption |]).
  unfold flagged. rewrite Hrd.
  destruct (lt (abs d) tolerance); cbn [negb];
    destruct (i <? 3)%nat.
  all: repeat match goal with
         | H : _ /\ _ |- _ => destruct H
         | H : exists _, _ |- _ => destruct H
         end; subst.
  all: cbn; rewrite ?Nat.add_0_r; repeat split; reflexivity.
Qed.

(** A completed run of the loop over any list of numbered trades. *)
Lemma for_each_check_trade : forall its equity errors w equity' errors' w',
  for_each check_trade its (equity, errors) w = (Ok (equity', errors'), w') ->
  exists out,
    w' = emit w out /\
    equity_after equity (map snd its) = Ok equity' /\
    errors' = (errors + length (filter flagged (map snd its)))%nat /\
    (forall t, In t (map snd its) -> exists diff, recomputed_diff t = Ok diff) /\
    filter is_mismatch out =
      map (fun it => Mismatch (fst it + 1))
        (filter (fun it => flagged (snd it)) its) /\
    filter is_trade_header out =
      map trade_header (filter (fun it => (fst it <? 3)%nat) its) /\
    forallb is_loop_line out = true.
Proof.
  induction its as [| [i t] its IH]; intros equity errors w equity' errors' w' H.
  - cbn in H. inversion H; subst. exists [].
    rewrite world_eta, Nat.add_0_r. cbn. repeat split; try reflexivity.
    intros t [].
  - apply for_each_cons_inv in H. destruct H as ([e1 n1] & w1 & Hstep & Hrest).
    apply check_trade_step in Hstep.
    destruct Hstep as (net & diff & o1 & Hn & Ha & Hd & He & Hw & Hm & Hh & Hl).
    apply IH in Hrest.
    destruct Hrest as (o2 & Hw2 & Heq & Herr & Hall & Hm2 & Hh2 & Hl2).
    exists (o1 ++ o2). subst w1. rewrite emit_emit in Hw2.
    split; [exact Hw2 |].
    split; [cbn [map snd]; now rewrite (equity_after_cons _ _ _ _ _ Hn Ha) |].
    split.
    { subst. cbn [map snd filter]. destruct (flagged t); cbn [length]; lia. }
    split.
    { intros t' [<- | Hin]; [now exists diff | now apply Hall]. }
    rewrite !filter_app, forallb_app, Hm, Hh, Hm2, Hh2, Hl, Hl2.
    cbn [filter fst snd]. repeat split.
    + now destruct (flagged t).
    + now destruct (i <? 3)%nat.
Qed.


Lemma writer_run : forall (A : Type) (m : M A) w r w',
  writer m -> m w = (r, w') ->
  exists out, w' = emit w out /\
              forall d, exec m d = (r, out).
Proof.
  intros A m w r w' [r0 [out H]] E. rewrite H in E. inversion E; subst.
  exists out. split; [reflexivity |]. intros d. now apply writes_exec.
Qed.

(** A completed run of the sampled loop of the script. *)
Lemma pnl_loop_inv : forall ie ts d equity errors out,
  exec (pnl_loop ie ts) d = (Ok (equity, errors), out) ->
  equity_after ie (firstn 10 ts) = Ok equity /\
  errors = length (filter flagged (firstn 10 ts)) /\
  (forall t, In t (firstn 10 ts) -> exists diff, recomputed_diff t = Ok diff) /\
  filter is_mismatch out =
    map (fun it => Mismatch (fst it + 1))
      (filter (fun it => flagged (snd it)) (enumerate (firstn 10 ts))) /\
  filter is_trade_header out =
    map trade_header
      (filter (fun it => (fst it <? 3)%nat) (enumerate (firstn 10 ts))) /\
  forallb is_loop_line out = true.
Proof.
  intros ie ts d equity errors out H.
  apply exec_world in H; [| apply writer_pnl_loop].
  unfold pnl_loop in H. apply for_each_check_trade in H.
  destruct H as (o & Hw & He & Hn & Hall & Hm & Hh & Hl).
  cbn in Hw. inversion Hw; subst o. rewrite map_snd_enumerate in *.
  now repeat split.
Qed.

(** A completed P&L verification: the header, the lines of the loop, the
    closing message. *)
Lemma verify_pnl_inv : forall ie ts d out,
  exec (verify_pnl ie ts) d = (Ok tt, out) ->
  exists equity errors lo,
    exec (pnl_loop ie ts) d = (Ok (equity, errors), lo) /\
    out = PnlHeader :: lo ++
          [if (errors =? 0)%nat then AllVerified else FoundMismatches errors].
Proof.
  intros ie ts d out H. unfold exec, verify_pnl in H.
  unfold print in H at 1. cbn [bind M_Monad printable] in H.
  destruct (pnl_loop ie ts (emit (boot d) [PnlHeader])) as [[[equity errors] | e] w1] eqn:E;
    [| discriminate H].
  apply writer_run in E; [| apply writer_pnl_loop].
  destruct E as (lo & -> & Hexec). cbn [document stdout] in H.
  exists equity, errors, lo. split; [apply Hexec |].
  destruct (errors =? 0)%nat; unfold print in H; cbn in H;
    inversion H; reflexivity.
Qed.

(** ** Reports of composed computations *)

Lemma exec_bind : forall (A B : Type) (c : M A) (k : A -> M B) d,
  writer c -> (forall a, writer (k a)) ->
  exec (x <- c ;; k x) d =
  match exec c d with
  | (Ok a, o1) => let '(r, o2) := exec (k a) d in (r, o1 ++ o2)
  | (Raise e, o1) => (Raise e, o1)
  end.
Proof.
  intros A B c k d [[a | e] [o1 H1]] Hk.
  - destruct (Hk a) as [r [o2 H2]].
    rewrite (writes_exec _ _ _ _ d (writes_bind_ok _ _ _ _ _ _ _ _ H1 H2)).
    now rewrite (writes_exec _ _ _ _ d H1), (writes_exec _ _ _ _ d H2).
  - rewrite (writes_exec _ _ _ _ d (writes_bind_raise _ _ _ k _ _ H1)).
    now rewrite (writes_exec _ _ _ _ d H1).
Qed.

Lemma exec_any_document : forall (A : Type) (m : M A) d d',
  writer m -> exec m d' = exec m d.
Proof.
  intros A m d d' [r [out H]].
  now rewrite (writes_exec _ _ _ _ d H), (writes_exec _ _ _ _ d' H).
Qed.

Lemma exec_print : forall l d,
  printable l = true -> exec (print l) d = (Ok tt, [l]).
Proof. intros l d H. apply writes_exec. now apply writes_print. Qed.

Lemma run_report : forall d, run d = exec (report d) d.
Proof. reflexivity. Qed.

(** The sections of a run, with any outcome. *)
Ltac solve_writer :=
  intros;
  repeat first
    [ solve [auto with writer]
    | apply writer_bind; [solve [auto with writer] | intros ?] ].

Lemma run_sections : forall d,
  let initial_equity := get (initialEquity d) (Int 0) in
  let final_equity := get (finalEquity d) (Int 0) in
  let total_return_pct := get (totalReturnPct d) (Int 0) in
  let ts := get (trades d) [] in
  let pf := get (performance d) no_performance in
  run d =
  match exec (print_summary d initial_equity final_equity total_return_pct ts pf) d with
  | (Raise e, o1) => (Raise e, [Rule; Banner; Rule] ++ o1)
  | (Ok _, o1) =>
    match exec (verify_pnl initial_equity ts) d with
    | (Raise e, o2) => (Raise e, [Rule; Banner; Rule] ++ o1 ++ o2)
    | (Ok _, o2) =>
      match exec (verify_equity_curve d final_equity) d with
      | (Raise e, o3) => (Raise e, [Rule; Banner; Rule] ++ o1 ++ o2 ++ o3)
      | (Ok _, o3) =>
        match exec (realism_check d total_return_pct ts pf) d with
        | (Raise e, o4) => (Raise e, [Rule; Banner; Rule] ++ o1 ++ o2 ++ o3 ++ o4)
        | (Ok issues, o4) =>
            let '(r, o5) := exec (final_summary issues) d in
            (r, [Rule; Banner; Rule] ++ o1 ++ o2 ++ o3 ++ o4 ++ o5)
        end
      end
    end
  end.
Proof.
  intros d ie fe tr ts pf. rewrite run_report. unfold report.
  fold ie fe tr ts pf.
  rewrite exec_bind, exec_print by solve_writer.
  rewrite exec_bind, exec_print by solve_writer.
  rewrite exec_bind, exec_print by solve_writer.
  rewrite exec_bind by solve_writer.
  destruct (exec (print_summary d ie fe tr ts pf) d) as [[[] | e] o1]; [| reflexivity].
  rewrite exec_bind by solve_writer.
  destruct (exec (verify_pnl ie ts) d) as [[[] | e] o2]; [| reflexivity].
  rewrite exec_bind by solve_writer.
  destruct (exec (verify_equity_curve d fe) d) as [[[] | e] o3]; [| reflexivity].
  rewrite exec_bind by solve_writer.
  destruct (exec (realism_check d tr ts pf) d) as [[issues | e] o4]; [| reflexivity].
  destruct (exec (final_summary issues) d) as [r o5]. reflexivity.
Qed.

(** ** Prefixes and samples *)

Lemma filter_index_combine_seq : forall (A : Type) (xs : list A) n m,
  filter (fun it : nat * A => (fst it <? m)%nat) (combine (seq n (length xs)) xs) =
  combine (seq n (length (firstn (m - n) xs))) (firstn (m - n) xs).
Proof.
  intros A xs. induction xs as [| x xs IH]; intros n m.
  - now rewrite firstn_nil.
  - cbn [length seq combine filter fst].
    destruct (n <? m)%nat eqn:E.
    + apply Nat.ltb_lt in E. destruct (m - n)%nat as [| p] eqn:Ep; [lia |].
      cbn [firstn length seq combine]. rewrite IH.
      now replace (m - S n)%nat with p by lia.
    + apply Nat.ltb_ge in E. rewrite IH.
      replace (m - S n)%nat with 0%nat by lia.
      now replace (m - n)%nat with 0%nat by lia.
Qed.

Lemma filter_index_enumerate : forall (A : Type) (xs : list A) m,
  filter (fun it : nat * A => (fst it <? m)%nat) (enumerate xs) =
  enumerate (firstn m xs).
Proof.
  intros A xs m. unfold enumerate. rewrite filter_index_combine_seq.
  now rewrite Nat.sub_0_r.
Qed.

Lemma firstn_combine_seq : forall (A : Type) (xs : list A) n k,
  firstn k (combine (seq n (length xs)) xs) =
  combine (seq n (length (firstn k xs))) (firstn k xs).
Proof.
  intros A xs. induction xs as [| x xs IH]; intros n k.
  - now rewrite !firstn_nil.
  - destruct k as [| k]; [reflexivity |].
    cbn [length seq combine firstn]. now rewrite IH.
Qed.

Lemma firstn_enumerate : forall (A : Type) (xs : list A) k,
  firstn k (enumerate xs) = enumerate (firstn k xs).
Proof. intros. apply firstn_combine_seq. Qed.

Lemma length_enumerate : forall (A : Type) (xs : list A),
  length (enumerate xs) = length xs.
Proof. intros. apply enumerate_from_length. Qed.

Lemma sum_snoc : forall xs x,
  sum (xs ++ [x]) = (a <- sum xs ;; add a x).
Proof. intros. unfold sum. now rewrite fold_left_app. Qed.

Lemma total_fees_snoc : forall ts t,
  total_fees (ts ++ [t]) = (a <- total_fees ts ;; add a (get (fees t) (Int 0))).
Proof.
  intros. unfold total_fees. rewrite map_app. cbn [map]. apply sum_snoc.
Qed.

(** ** The equity curve verification *)

Lemma verify_equity_curve_inv : forall data fe d r out,
  exec (verify_equity_curve data fe) d = (r, out) ->
  match get (equityCurve data) [] with
  | [] => r = Ok tt /\ out = [CurveHeader]
  | first :: rest =>
      let equity_curve := first :: rest in
      let last := List.last equity_curve first in
      exists more,
        out = CurveHeader :: CurvePoints (length equity_curve) :: more /\
        (r = Ok tt ->
         exists vs ve vx diff,
           to_float first = Ok vs /\ to_float last = Ok ve /\
           to_float fe = Ok vx /\ sub last fe = Ok diff /\
           more = [CurveStart vs; CurveEnd ve; CurveExpected vx;
                   if lt (abs diff) tolerance then CurveMatches
                   else CurveMismatch])
  end.
Proof.
  intros data fe d r out H. unfold exec, verify_equity_curve in H.
  destruct (get (equityCurve data) []) as [| first rest].
  - cbn in H. now inversion H.
  - cbv zeta. remember (List.last (first :: rest) first) as last eqn:El.
    unfold fmt, lift, print in H.
    cbn [bind ret M_Monad stdout document app] in H.
    destruct (to_float first) as [vs | e] eqn:E1;
      [| inversion H; eexists; split; [reflexivity | discriminate]].
    cbn [app] in H.
    destruct (to_float last) as [ve | e] eqn:E2;
      [| inversion H; eexists; split; [reflexivity | discriminate]].
    cbn [app] in H.
    destruct (to_float fe) as [vx | e] eqn:E3;
      [| inversion H; eexists; split; [reflexivity | discriminate]].
    cbn [app] in H.
    destruct (sub last fe) as [diff | e] eqn:E4;
      [| inversion H; eexists; split; [reflexivity | discriminate]].
    destruct (lt (abs diff) tolerance) eqn:E5; cbn in H; inversion H;
      eexists; (split; [reflexivity |]); intros _;
      exists vs, ve, vx, diff; rewrite E5; now repeat split.
Qed.

(** ** The realism checks *)

Lemma realism_check_inv : forall data tr ts pf d issues out,
  exec (realism_check data tr ts pf) d = (Ok issues, out) ->
  let max_dd := get (maxDrawdown data) (Int 0) in
  exists win_rate total v1 v2 v4 fee_lines,
    mul (get (winRate pf) (Int 0)) (Int 100) = Ok win_rate /\
    total_fees ts = Ok total /\
    to_float tr = Ok v1 /\ to_float win_rate = Ok v2 /\
    to_float max_dd = Ok v4 /\
    (eq total (Int 0) = false ->
       exists v5, to_float total = Ok v5 /\ fee_lines = [FeesDeducted v5]) /\
    issues =
      (if gt (abs tr) (Int 100) then [ExtremeReturn v1] else []) ++
      (if lt win_rate (Int 20) || gt win_rate (Int 80)
       then [UnusualWinRate v2] else []) ++
      (if (length ts =? 0)%nat then [NoTrades] else []) ++
      (if gt max_dd (Int 50) then [ExtremeDrawdown v4] else []) ++
      (if eq total (Int 0) then [NoFees] else []) /\
    out =
      RealismHeader ::
      (if gt (abs tr) (Int 100) then [] else [ReturnReasonable v1]) ++
      (if lt win_rate (Int 20) || gt win_rate (Int 80)
       then [] else [WinRateReasonable v2]) ++
      (if (length ts =? 0)%nat then [] else [TradesGenerated (length ts)]) ++
      (if gt max_dd (Int 50) then [] else [DrawdownReasonable v4]) ++
      (if eq total (Int 0) then [] else fee_lines).
Proof.
  intros data tr ts pf d issues out H max_dd.
  unfold exec, realism_check in H. fold max_dd in H.
  run_in H.
  all: cbn in H; inversion H; subst; clear H.
  all: first
    [ match goal with
      | E : total_fees _ = Ok ?t, E' : to_float ?t = Ok ?v |- _ =>
          eexists _, t, _, _, _, [FeesDeducted v]
      end
    | eexists _, _, _, _, _, [] ].
  all: repeat (split; [first [eassumption | reflexivity] |]).
  all: split;
    [ intros C; first [congruence | eexists; split; [eassumption | reflexivity]] |].
  all: repeat match goal with
         | E : ?b = _ |- context [if ?b then _ else _] => rewrite E
         end.
  all: split; reflexivity.
Qed.

(** ** The final summary *)

Lemma writes_issue_lines : forall issues,
  writes (for_each (fun i (_ : unit) => print (IssueLine i)) issues tt)
    (Ok tt) (map IssueLine issues).
Proof.
  induction issues as [| i issues IH]; cbn [for_each map].
  - apply writes_ret.
  - apply (writes_bind_ok _ _ _ _ tt [IssueLine i] _ _ (writes_print (IssueLine i) eq_refl) IH).
Qed.

Lemma final_summary_exec : forall issues d,
  exec (final_summary issues) d =
  (Ok tt,
   match issues with
   | [] => [AllChecksPassed]
   | _ :: _ => IssuesFound :: map IssueLine issues
   end ++ [ClosingRule]).
Proof.
  intros issues d. apply writes_exec. unfold final_summary.
  eapply writes_bind_ok; [| now apply writes_print].
  destruct issues as [| i issues]; [now apply writes_print |].
  apply (writes_bind_ok _ _ _ _ tt [IssuesFound] _ _ (writes_print IssuesFound eq_refl)).
  apply writes_issue_lines.
Qed.

(** ** What each section can print *)

Lemma emits_writer : forall P (A : Type) (m : M A), emits P m -> writer m.
Proof. intros P A m (r & out & H & _). now exists r, out. Qed.

Lemma emits_ret : forall P (A : Type) (a : A), emits P (ret a).
Proof. intros. exists (Ok a), []. split; [apply writes_ret | reflexivity]. Qed.

Lemma emits_lift : forall P (A : Type) (r : result A), emits P (lift r).
Proof. intros. exists r, []. split; [apply writes_lift | reflexivity]. Qed.

Lemma emits_fmt : forall P x, emits P (fmt x).
Proof. intros. apply emits_lift. Qed.

Lemma emits_print : forall (P : line -> bool) l, P l = true -> emits P (print l).
Proof.
  intros P l H. destruct (printable l) eqn:E.
  - exists (Ok tt), [l]. split; [now apply writes_print |].
    cbn. now rewrite H.
  - exists (Raise UnicodeEncodeError), [].
    split; [now apply writes_print_error | reflexivity].
Qed.

Lemma emits_bind : forall P (A B : Type) (c : M A) (k : A -> M B),
  emits P c -> (forall a, emits P (k a)) -> emits P (x <- c ;; k x).
Proof.
  intros P A B c k ([a | e] & o1 & Hc & H1) Hk.
  - destruct (Hk a) as (r & o2 & Hka & H2). exists r, (o1 ++ o2). split.
    + eapply writes_bind_ok; eassumption.
    + now rewrite forallb_app, H1, H2.
  - exists (Raise e), o1. split; [| exact H1].
    eapply writes_bind_raise; eassumption.
Qed.

Lemma emits_for_each : forall P (A S : Type) (body : A -> S -> M S) xs s,
  (forall x s', emits P (body x s')) -> emits P (for_each body xs s).
Proof.
  intros P A S body xs. induction xs as [| x xs IH]; intros s Hbody; cbn [for_each].
  - apply emits_ret.
  - apply emits_bind; [apply Hbody | intros s'; now apply IH].
Qed.

Lemma emits_exec : forall P (A : Type) (m : M A) d r out,
  emits P m -> exec m d = (r, out) -> forallb P out = true.
Proof.
  intros P A m d r out (r' & out' & H & Hall) E.
  rewrite (writes_exec _ _ _ _ d H) in E. now inversion E; subst.
Qed.

Ltac emits_steps :=
  repeat first
    [ apply emits_ret | apply emits_print; reflexivity | apply emits_fmt
    | apply emits_lift
    | apply emits_bind; [| intros ?]
    | apply emits_for_each; intros ? ?
    | match goal with
      | |- emits _ (if ?b then _ else _) => destruct b
      | |- emits _ (match ?x with _ => _ end) => destruct x
      | |- emits _ (let '(_, _) := ?x in _) => destruct x
      end ].

Lemma emits_print_summary : forall data ie fe tr ts pf,
  emits before_final_summary (print_summary data ie fe tr ts pf).
Proof. intros. unfold print_summary. emits_steps. Qed.

Lemma emits_check_trade : forall it vars,
  emits before_final_summary (check_trade it vars).
Proof. intros [i t] [e n]. unfold check_trade. emits_steps. Qed.

Lemma emits_verify_pnl : forall ie ts,
  emits before_final_summary (verify_pnl ie ts).
Proof.
  intros. unfold verify_pnl. apply emits_bind; [now apply emits_print |].
  intros _. apply emits_bind.
  - unfold pnl_loop. apply emits_for_each. intros. apply emits_check_trade.
  - intros [e n]. emits_steps.
Qed.

Lemma emits_verify_equity_curve : forall data fe,
  emits before_final_summary (verify_equity_curve data fe).
Proof. intros. unfold verify_equity_curve. emits_steps. Qed.

Lemma emits_realism_check : forall data tr ts pf,
  emits before_final_summary (realism_check data tr ts pf).
Proof. intros. unfold realism_check. emits_steps. Qed.

(** The all-checks-passed line can only come from a final summary that is
    reached with an empty list of issues. *)
Lemma all_checks_passed_inv : forall d,
  In AllChecksPassed (snd (run d)) ->
  exists o4,
    exec (realism_check d (get (totalReturnPct d) (Int 0))
            (get (trades d) []) (get (performance d) no_performance)) d
      = (Ok [], o4).
Proof.
  intros d H. rewrite run_sections in H.
  destruct (exec (print_summary _ _ _ _ _ _) d) as [[[] | e] o1] eqn:E1.
  2: { cbn in H. destruct H as [H | [H | [H | H]]]; try discriminate H.
       pose proof (emits_exec _ _ _ _ _ _ (emits_print_summary _ _ _ _ _ _) E1) as A.
       rewrite forallb_forall in A. apply A in H. discriminate H. }
  pose proof (emits_exec _ _ _ _ _ _ (emits_print_summary _ _ _ _ _ _) E1) as A1.
  destruct (exec (verify_pnl _ _) d) as [[[] | e] o2] eqn:E2;
    pose proof (emits_exec _ _ _ _ _ _ (emits_verify_pnl _ _) E2) as A2.
  2: { cbn in H. destruct H as [H | [H | [H | H]]]; try discriminate H.
       rewrite forallb_forall in A1, A2.
       apply in_app_or in H. destruct H as [H | H];
         [apply A1 in H | apply A2 in H]; discriminate H. }
  destruct (exec (verify_equity_curve _ _) d) as [[[] | e] o3] eqn:E3;
    pose proof (emits_exec _ _ _ _ _ _ (emits_verify_equity_curve _ _) E3) as A3.
  2: { cbn in H. destruct H as [H | [H | [H | H]]]; try discriminate H.
       rewrite forallb_forall in A1, A2, A3.
       apply in_app_or in H. destruct H as [H | H]; [apply A1 in H; discriminate H |].
       apply in_app_or in H. destruct H as [H | H];
         [apply A2 in H | apply A3 in H]; discriminate H. }
  destruct (exec (realism_check _ _ _ _) d) as [[issues | e] o4] eqn:E4;
    pose proof (emits_exec _ _ _ _ _ _ (emits_realism_check _ _ _ _) E4) as A4.
  2: { cbn in H. destruct H as [H | [H | [H | H]]]; try discriminate H.
       rewrite forallb_forall in A1, A2, A3, A4.
       apply in_app_or in H. destruct H as [H | H]; [apply A1 in H; discriminate H |].
       apply in_app_or in H. destruct H as [H | H]; [apply A2 in H; discriminate H |].
       apply in_app_or in H. destruct H as [H | H];
         [apply A3 in H | apply A4 in H]; discriminate H. }
  rewrite final_summary_exec in H. cbn [snd] in H.
  rewrite forallb_forall in A1, A2, A3, A4.
  cbn in H. destruct H as [H | [H | [H | H]]]; try discriminate H.
  apply in_app_or in H. destruct H as [H | H]; [apply A1 in H; discriminate H |].
  apply in_app_or in H. destruct H as [H | H]; [apply A2 in H; discriminate H |].
  apply in_app_or in H. destruct H as [H | H]; [apply A3 in H; discriminate H |].
  apply in_app_or in H. destruct H as [H | H]; [apply A4 in H; discriminate H |].
  destruct issues as [| i issues]; [now exists o4 |].
  exfalso. cbn [app In] in H. destruct H as [H | H]; [discriminate H |].
  apply in_app_or in H. destruct H as [H | [H | []]]; [| discriminate H].
  apply in_map_iff in H. destruct H as [x [H _]]. discriminate H.
Qed.

(** ** Converting an int to a float

    The conversion rounds to 53 bits; below [2 ^ 1023] the rounded value
    is finite, so the conversion does not raise. *)

Lemma digits2_pos_size : forall p, digits2_pos p = Pos.size p.
Proof. induction p; cbn; now rewrite ?IHp. Qed.

Lemma digits2_pos_gt : forall p, Zpos p < 2 ^ Zpos (digits2_pos p).
Proof.
  intros p. rewrite digits2_pos_size.
  pose proof (Pos.size_gt p) as H.
  apply Pos2Z.pos_lt_pos in H. now rewrite Pos2Z.inj_pow in H.
Qed.

Lemma digits2_pos_le : forall p, 2 ^ (Zpos (digits2_pos p) - 1) <= Zpos p.
Proof.
  intros p. rewrite digits2_pos_size.
  pose proof (Pos.size_le p) as H.
  apply Pos2Z.pos_le_pos in H. rewrite Pos2Z.inj_pow in H.
  replace (Zpos (Pos.size p)) with (Z.succ (Zpos (Pos.size p) - 1)) in H by lia.
  rewrite Z.pow_succ_r in H by lia. lia.
Qed.

(** Below [2 ^ k] there are at most [k] binary digits. *)
Lemma Zdigits2_bound : forall m k, 0 <= k -> Z.abs m < 2 ^ k -> Zdigits2 m <= k.
Proof.
  intros m k Hk H.
  assert (forall p, Zpos p < 2 ^ k -> Zpos (digits2_pos p) <= k) as P.
  { intros p Hp. pose proof (digits2_pos_le p) as L.
    destruct (Z_le_gt_dec (Zpos (digits2_pos p)) k) as [| G]; [assumption |].
    assert (2 ^ k <= 2 ^ (Zpos (digits2_pos p) - 1))
      by (apply Z.pow_le_mono_r; lia).
    lia. }
  destruct m as [| p | p]; cbn in *; [assumption | now apply P | now apply P].
Qed.

Lemma Zdigits2_nonneg : forall m, 0 <= Zdigits2 m.
Proof. intros [| p | p]; cbn; lia. Qed.

Lemma Zdigits2_gt : forall m, Z.abs m < 2 ^ Zdigits2 m.
Proof.
  intros [| p | p]; cbn [Zdigits2 Z.abs]; [reflexivity | |]; apply digits2_pos_gt.
Qed.

Lemma Zdigits2_shr_1 : forall mrs,
  Zdigits2 (shr_m (shr_1 mrs)) = Z.max 0 (Zdigits2 (shr_m mrs) - 1).
Proof.
  intros [[| [p | p |] | [p | p |]] r s];
    cbn [shr_1 shr_m Zdigits2 digits2_pos]; rewrite ?Pos2Z.inj_succ; lia.
Qed.

Lemma Zdigits2_shr : forall p mrs,
  Zdigits2 (shr_m (iter_pos shr_1 p mrs)) = Z.max 0 (Zdigits2 (shr_m mrs) - Zpos p).
Proof.
  induction p as [p IH | p IH |]; intros mrs; cbn [iter_pos].
  - rewrite !IH, Zdigits2_shr_1. lia.
  - rewrite !IH. lia.
  - apply Zdigits2_shr_1.
Qed.

Lemma round_nearest_even_bound : forall m l,
  0 <= m -> m <= round_nearest_even m l <= m + 1.
Proof.
  intros m [| [ | | ]] H; cbn; try lia. destruct (Z.even m); lia.
Qed.

Lemma shr_m_nonneg_1 : forall mrs, 0 <= shr_m mrs -> 0 <= shr_m (shr_1 mrs).
Proof. intros [[| [p | p |] | [p | p |]] r s]; cbn; lia. Qed.

Lemma shr_m_nonneg : forall p mrs, 0 <= shr_m mrs -> 0 <= shr_m (iter_pos shr_1 p mrs).
Proof.
  induction p as [p IH | p IH |]; intros mrs H; cbn [iter_pos].
  - now apply IH, IH, shr_m_nonneg_1.
  - now apply IH, IH.
  - now apply shr_m_nonneg_1.
Qed.

(** The result of a shift: the exponent goes up by the shift, the digits
    of the mantissa go down by it. *)
Lemma shr_fexp_bound : forall m e l mrs' e' K,
  0 <= m -> shr_fexp prec emax m e l = (mrs', e') ->
  e <= emax - prec -> Zdigits2 m + e <= K -> K <= emax ->
  0 <= shr_m mrs' /\ e' <= emax - prec /\ Zdigits2 (shr_m mrs') + e' <= Z.max K e'.
Proof.
  intros m e l mrs' e' K Hm H He HK HK'. unfold shr_fexp, shr in H.
  assert (shr_m (shr_record_of_loc m l) = m) as Em by (now destruct l as [| []]).
  unfold fexp, emin, prec, emax in *.
  destruct (Z.max (Zdigits2 m + e - 53) (3 - 1024 - 53) - e) as [| p | p] eqn:En;
    inversion H; subst; rewrite ?Em.
  - repeat split; lia.
  - repeat split; try lia.
    + apply shr_m_nonneg. now rewrite Em.
    + rewrite Zdigits2_shr, Em. pose proof (Zdigits2_nonneg m). lia.
  - repeat split; lia.
Qed.

Lemma Zdigits2_succ_bound : forall m m',
  0 <= m -> m <= m' <= m + 1 -> Zdigits2 m' <= Zdigits2 m + 1.
Proof.
  intros m m' Hm H. pose proof (Zdigits2_gt m) as G.
  pose proof (Zdigits2_nonneg m) as N.
  apply Zdigits2_bound; [lia |].
  replace (Zdigits2 m + 1) with (Z.succ (Zdigits2 m)) by lia.
  rewrite Z.pow_succ_r by assumption. rewrite Z.abs_eq in * by lia. lia.
Qed.

Lemma binary_round_aux_finite : forall s m e,
  e <= emax - prec -> Zpos (digits2_pos m) + e < emax ->
  is_infinity (binary_round_aux prec emax s (Zpos m) e loc_Exact) = false.
Proof.
  intros s m e He Hd. unfold binary_round_aux.
  destruct (shr_fexp prec emax (Zpos m) e loc_Exact) as [mrs1 e1] eqn:E1.
  apply (shr_fexp_bound _ _ _ _ _ (emax - 1)) in E1;
    [| lia | assumption | cbn [Zdigits2]; lia | lia].
  destruct E1 as (N1 & B1 & D1).
  set (m2 := round_nearest_even (shr_m mrs1) (loc_of_shr_record mrs1)).
  pose proof (round_nearest_even_bound (shr_m mrs1) (loc_of_shr_record mrs1) N1) as R.
  fold m2 in R.
  pose proof (Zdigits2_succ_bound (shr_m mrs1) m2 N1 R) as D2.
  destruct (shr_fexp prec emax m2 e1 loc_Exact) as [mrs2 e2] eqn:E2.
  apply (shr_fexp_bound _ _ _ _ _ emax) in E2;
    [| lia | assumption | unfold prec, emax in *; lia | lia].
  destruct E2 as (N2 & B2 & _).
  destruct (shr_m mrs2); try reflexivity.
  apply Z.leb_le in B2. now rewrite B2.
Qed.

Lemma digits2_pos_iter_xO : forall k m,
  digits2_pos (Pos.iter xO m k) = (digits2_pos m + k)%positive.
Proof.
  induction k as [| k IH] using Pos.peano_ind; intros m.
  - cbn. lia.
  - rewrite Pos.iter_succ. cbn [digits2_pos]. rewrite IH. lia.
Qed.

Lemma binary_round_finite : forall s m,
  Zpos m < 2 ^ (emax - 1) ->
  is_infinity (binary_round prec emax s m 0) = false.
Proof.
  intros s m H. unfold binary_round.
  assert (Zpos (digits2_pos m) <= emax - 1) as D
    by (apply (Zdigits2_bound (Zpos m)); [unfold emax; lia | exact H]).
  unfold shl_align, fexp, emin, prec, emax in *.
  destruct (Z.max (Zpos (digits2_pos m) + 0 - 53) (3 - 1024 - 53) - 0)
    as [| p | p] eqn:E.
  - apply binary_round_aux_finite; unfold prec, emax; lia.
  - apply binary_round_aux_finite; unfold prec, emax; lia.
  - apply binary_round_aux_finite; unfold prec, emax;
      rewrite ?digits2_pos_iter_xO; lia.
Qed.

Lemma float_of_int_ok : forall z,
  Z.abs z < float_limit -> exists f, float_of_int z = Ok f.
Proof.
  intros z H. unfold float_of_int, binary_normalize.
  destruct z as [| p | p]; [now eexists | |].
  - pose proof (binary_round_finite false p H) as F.
    destruct (binary_round prec emax false p 0); try discriminate F; now eexists.
  - pose proof (binary_round_finite true p H) as F.
    destruct (binary_round prec emax true p 0); try discriminate F; now eexists.
Qed.

(** ** Arithmetic on bounded numbers *)

Lemma limits :
  0 <= int_limit /\ int_limit < float_limit /\
  int_limit + int_limit < float_limit /\
  (int_limit + int_limit) * int_limit < float_limit /\
  0 <= net_limit /\ net_limit < float_limit /\
  net_limit + int_limit < float_limit /\
  int_limit + 10 * net_limit < float_limit /\
  int_limit * 100 < float_limit /\
  int_limit * int_limit < float_limit /\
  100 < float_limit.
Proof. vm_compute. repeat split; discriminate. Qed.

Lemma mag_weaken : forall B B' x, mag B x -> B <= B' -> mag B' x.
Proof. intros B B' [z | f] H L; unfold mag in *; [lia | exact I]. Qed.

Lemma mag_abs : forall B x, mag B x -> mag B (abs x).
Proof. intros B [z | f] H; unfold mag, abs in *; [lia | exact I]. Qed.

Lemma small_mag : forall x, small x = true -> mag int_limit x.
Proof.
  intros [z | f] H; [| exact I]. unfold small in H. unfold mag.
  now apply Z.leb_le.
Qed.

Lemma small_field_mag : forall f,
  small_field f = true -> mag int_limit (get f (Int 0)).
Proof.
  intros [x |] H; [now apply small_mag |].
  unfold get, mag. change (Z.abs 0) with 0. now destruct limits.
Qed.

Lemma to_float_ok : forall B x,
  mag B x -> B < float_limit -> exists f, to_float x = Ok f.
Proof.
  intros B [z | f] H L; [| now eexists].
  unfold mag in H. unfold to_float. apply float_of_int_ok. lia.
Qed.

Lemma arith_ok : forall on_int on_float B1 B2 B3 x y,
  mag B1 x -> mag B2 y -> B1 < float_limit -> B2 < float_limit ->
  (forall a b, Z.abs a <= B1 -> Z.abs b <= B2 -> Z.abs (on_int a b) <= B3) ->
  exists r, arith on_int on_float x y = Ok r /\ mag B3 r.
Proof.
  intros on_int on_float B1 B2 B3 x y Hx Hy L1 L2 Hop.
  destruct (to_float_ok B1 x Hx L1) as [f Ef].
  destruct (to_float_ok B2 y Hy L2) as [g Eg].
  destruct x as [a | f'], y as [b | g']; cbn [arith].
  - eexists. split; [reflexivity |]. unfold mag in *. now apply Hop.
  - rewrite Ef. cbn [bind ret result_Monad to_float]. now eexists.
  - rewrite Ef, Eg. cbn [bind ret result_Monad]. now eexists.
  - cbn [bind ret result_Monad to_float]. now eexists.
Qed.

Lemma add_ok : forall B1 B2 x y,
  mag B1 x -> mag B2 y -> B1 < float_limit -> B2 < float_limit ->
  exists r, add x y = Ok r /\ mag (B1 + B2) r.
Proof. intros. eapply arith_ok; eauto. intros; lia. Qed.

Lemma sub_ok : forall B1 B2 x y,
  mag B1 x -> mag B2 y -> B1 < float_limit -> B2 < float_limit ->
  exists r, sub x y = Ok r /\ mag (B1 + B2) r.
Proof. intros. eapply arith_ok; eauto. intros; lia. Qed.

Lemma mul_ok : forall B1 B2 x y,
  mag B1 x -> mag B2 y -> B1 < float_limit -> B2 < float_limit ->
  exists r, mul x y = Ok r /\ mag (B1 * B2) r.
Proof.
  intros. eapply arith_ok; eauto. intros a b Ha Hb.
  rewrite Z.abs_mul. apply Z.mul_le_mono_nonneg; lia.
Qed.

(** ** Computations that complete *)

Lemma yields_ret : forall (A : Type) (a : A) (Q : A -> Prop),
  Q a -> yields (ret a) Q.
Proof. intros A a Q H. exists a, []. split; [apply writes_ret | exact H]. Qed.

Lemma yields_print : forall l (Q : unit -> Prop),
  printable l = true -> Q tt -> yields (print l) Q.
Proof.
  intros l Q P H. exists tt, [l]. split; [now apply writes_print | exact H].
Qed.

Lemma yields_lift : forall (A : Type) (r : result A) (Q : A -> Prop),
  (exists a, r = Ok a /\ Q a) -> yields (lift r) Q.
Proof.
  intros A r Q (a & -> & H). exists a, []. split; [apply writes_lift | exact H].
Qed.

Lemma yields_fmt : forall B x,
  mag B x -> B < float_limit -> yields (fmt x) (fun _ => True).
Proof.
  intros B x H L. apply yields_lift.
  destruct (to_float_ok B x H L) as [f E]. now exists f.
Qed.

Lemma yields_bind : forall (A B : Type) (c : M A) (k : A -> M B) Q R,
  yields c Q -> (forall a, Q a -> yields (k a) R) ->
  yields (x <- c ;; k x) R.
Proof.
  intros A B c k Q R (a & o1 & Hc & Ha) Hk.
  destruct (Hk a Ha) as (b & o2 & Hb & Hr).
  exists b, (o1 ++ o2). split; [| exact Hr].
  eapply writes_bind_ok; eassumption.
Qed.

Lemma yields_weaken : forall (A : Type) (m : M A) (Q R : A -> Prop),
  yields m Q -> (forall a, Q a -> R a) -> yields m R.
Proof. intros A m Q R (a & o & H & Ha) HQR. exists a, o. auto. Qed.

Lemma yields_exec : forall (A : Type) (m : M A) Q d,
  yields m Q -> exists a out, exec m d = (Ok a, out) /\ Q a.
Proof.
  intros A m Q d (a & o & H & Ha). exists a, o.
  split; [now apply writes_exec | exact Ha].
Qed.

Lemma yields_then : forall (A B : Type) (c : M A) (k : A -> M B) R,
  yields c (fun _ => True) -> (forall a, yields (k a) R) ->
  yields (x <- c ;; k x) R.
Proof. intros A B c k R Hc Hk. eapply yields_bind; [exact Hc | auto]. Qed.

(** Sequences of prints and formats of bounded numbers. *)
Ltac limit :=
  pose proof limits as (? & ? & ? & ? & ? & ? & ? & ? & ? & ? & ?); lia.

Ltac yield_fmt :=
  eapply yields_fmt; [eassumption | limit].

Ltac yield_print :=
  apply yields_print; [first [reflexivity | assumption] | exact I].

Ltac yield_steps :=
  repeat first
    [ yield_print
    | yield_fmt
    | apply yields_ret; exact I
    | eapply yields_then; [first [yield_print | yield_fmt] | intros ?] ].

(** ** Every section completes on numbers of moderate size *)

Lemma print_summary_yields : forall data ie fe tr ts pf,
  mag int_limit ie -> mag int_limit fe -> mag int_limit tr ->
  mag int_limit (get (winRate pf) (Int 0)) ->
  mag int_limit (get (maxDrawdown data) (Int 0)) ->
  mag int_limit (get (sharpe pf) (Int 0)) ->
  yields (print_summary data ie fe tr ts pf) (fun _ => True).
Proof.
  intros data ie fe tr ts pf H1 H2 H3 H4 H5 H6. unfold print_summary.
  do 8 (eapply yields_then; [first [yield_print | yield_fmt] | intros ?]).
  eapply yields_bind.
  { apply yields_lift.
    apply (mul_ok int_limit 100 _ (Int 100) H4);
      [unfold mag; lia | limit | limit]. }
  cbv beta. intros pct Hpct. yield_steps.
Qed.

Lemma raw_pnl_ok : forall side entry exit size,
  mag int_limit entry -> mag int_limit exit -> mag int_limit size ->
  exists raw, raw_pnl side entry exit size = Ok raw /\
              mag ((int_limit + int_limit) * int_limit) raw.
Proof.
  intros side entry exit size He Hx Hs. unfold raw_pnl.
  destruct (String.eqb side "SELL").
  - destruct (sub_ok _ _ _ _ Hx He) as (d & -> & Hd); try limit.
    cbn [bind result_Monad]. apply (mul_ok _ _ _ _ Hd Hs); limit.
  - destruct (sub_ok _ _ _ _ He Hx) as (d & -> & Hd); try limit.
    cbn [bind result_Monad]. apply (mul_ok _ _ _ _ Hd Hs); limit.
Qed.

Lemma small_trade_mag : forall t,
  small_trade t = true ->
  mag int_limit (get (entryPrice t) (Int 0)) /\
  mag int_limit (get (exitPrice t) (Int 0)) /\
  mag int_limit (get (size t) (Int 0)) /\
  mag int_limit (get (fees t) (Int 0)) /\
  mag int_limit (get (pnl t) (Int 0)).
Proof.
  intros t H. unfold small_trade in H.
  repeat (apply andb_true_iff in H; destruct H as [H ?]).
  repeat split; now apply small_field_mag.
Qed.

Lemma check_trade_yields : forall i t equity errors E,
  small_trade t = true -> mag E equity -> 0 <= E ->
  E + net_limit < float_limit ->
  ((i <? 3)%nat = true -> encodable (get (side t) "BUY"%string) = true) ->
  yields (check_trade (i, t) (equity, errors))
    (fun vars => mag (E + net_limit) (fst vars)).
Proof.
  intros i t equity errors E Ht He HE0 HE Hside.
  apply small_trade_mag in Ht. destruct Ht as (M1 & M2 & M3 & M4 & M5).
  unfold check_trade.
  destruct (raw_pnl_ok (get (side t) "BUY"%string) _ _ _ M1 M2 M3)
    as (raw & Eraw & Mraw).
  eapply yields_bind; [apply yields_lift; eexists; split; [exact Eraw | exact Mraw] |].
  cbv beta. clear raw Eraw Mraw. intros raw Mraw.
  eapply yields_bind.
  { apply yields_lift. apply (sub_ok _ _ _ _ Mraw M4); limit. }
  cbv beta. fold net_limit. intros net Mnet.
  eapply yields_bind.
  { apply yields_lift. apply (add_ok _ _ _ _ He Mnet); limit. }
  cbv beta. intros equity' Meq.
  eapply yields_bind.
  { apply yields_lift. apply (sub_ok _ _ _ _ Mnet M5); limit. }
  cbv beta. intros d Md. apply mag_abs in Md.
  eapply yields_bind with (Q := fun _ => True).
  { destruct (negb (lt (abs d) tolerance)); [| now apply yields_ret].
    yield_steps. }
  intros errors' _.
  eapply yields_bind with (Q := fun _ => True).
  { destruct (i <? 3)%nat; [| now apply yields_ret].
    specialize (Hside eq_refl). yield_steps. }
  intros _ _. now apply yields_ret.
Qed.

Lemma for_each_check_trade_yields : forall its equity errors E,
  forallb small_trade (map snd its) = true -> mag E equity -> 0 <= E ->
  E + Z.of_nat (length its) * net_limit < float_limit ->
  (forall i t, In (i, t) its -> (i <? 3)%nat = true ->
     encodable (get (side t) "BUY"%string) = true) ->
  yields (for_each check_trade its (equity, errors)) (fun _ => True).
Proof.
  induction its as [| [i t] its IH]; intros equity errors E Hs He HE0 HE Hside.
  - now apply yields_ret.
  - cbn [map snd forallb] in Hs. apply andb_true_iff in Hs.
    destruct Hs as [Ht Hs]. cbn [for_each].
    assert (0 <= net_limit) as N by (now destruct limits as (_ & _ & _ & _ & ? & _)).
    cbn [length] in HE. rewrite Nat2Z.inj_succ in HE.
    eapply yields_bind.
    + apply (check_trade_yields i t equity errors E Ht He HE0).
      * assert (0 <= Z.of_nat (length its) * net_limit)
          by (apply Z.mul_nonneg_nonneg; lia).
        lia.
      * apply Hside. now left.
    + intros [equity' errors'] Meq. cbn [fst] in Meq.
      apply (IH equity' errors' (E + net_limit) Hs Meq); try lia.
      intros i' t' Hin. apply Hside. now right.
Qed.

Lemma forallb_firstn : forall (A : Type) (f : A -> bool) n xs,
  forallb f xs = true -> forallb f (firstn n xs) = true.
Proof.
  intros A f n xs H. rewrite forallb_forall in *.
  intros x Hx. apply H. rewrite <- (firstn_skipn n xs).
  apply in_or_app. now left.
Qed.

Lemma verify_pnl_yields : forall ie ts,
  mag int_limit ie -> forallb small_trade ts = true ->
  forallb (fun t => encodable (get (side t) "BUY"%string)) (firstn 3 ts)
    = true ->
  yields (verify_pnl ie ts) (fun _ => True).
Proof.
  intros ie ts Hie Hts Hsides. unfold verify_pnl.
  eapply yields_then; [now apply yields_print |]. intros _.
  eapply yields_bind with (Q := fun _ => True).
  - unfold pnl_loop.
    apply (for_each_check_trade_yields _ _ _ int_limit); try assumption.
    + rewrite map_snd_enumerate. now apply forallb_firstn.
    + limit.
    + rewrite length_enumerate, length_firstn.
      pose proof limits as (? & ? & ? & ? & ? & ? & ? & ? & ? & ? & ?).
      pose proof (Nat.le_min_l 10 (length ts)).
      assert (Z.of_nat (Nat.min 10 (length ts)) * net_limit <= 10 * net_limit)
        by (apply Z.mul_le_mono_nonneg_r; lia).
      lia.
    + intros i t Hin Hi. apply In_enumerate in Hin.
      rewrite nth_error_firstn in Hin.
      destruct (i <? 10)%nat; [| discriminate Hin].
      rewrite forallb_forall in Hsides. apply Hsides.
      apply (nth_error_In _ i). now rewrite nth_error_firstn, Hi.
  - intros [equity errors] _. destruct (errors =? 0)%nat; now apply yields_print.
Qed.

Lemma last_In : forall (A : Type) (xs : list A) x d,
  In (List.last (x :: xs) d) (x :: xs).
Proof.
  intros A xs. induction xs as [| y xs IH]; intros x d.
  - now left.
  - right. change (List.last (x :: y :: xs) d) with (List.last (y :: xs) d).
    apply IH.
Qed.

Lemma verify_equity_curve_yields : forall data fe,
  mag int_limit fe -> forallb small (get (equityCurve data) []) = true ->
  yields (verify_equity_curve data fe) (fun _ => True).
Proof.
  intros data fe Hfe Hc. unfold verify_equity_curve.
  eapply yields_then; [now apply yields_print |]. intros _.
  destruct (get (equityCurve data) []) as [| first rest] eqn:E;
    [now apply yields_ret |].
  rewrite forallb_forall in Hc.
  assert (mag int_limit first) as M1 by (apply small_mag, Hc; now left).
  assert (mag int_limit (List.last (first :: rest) first)) as M2
    by (apply small_mag, Hc, last_In).
  do 7 (eapply yields_then; [first [yield_print | yield_fmt] | intros ?]).
  eapply yields_bind.
  { apply yields_lift. apply (sub_ok _ _ _ _ M2 Hfe); limit. }
  cbv beta. intros d _.
  destruct (lt (abs d) tolerance); now apply yields_print.
Qed.

Lemma sum_ok : forall xs acc B,
  Forall (mag int_limit) xs -> mag B acc -> 0 <= B ->
  B + Z.of_nat (length xs) * int_limit < float_limit ->
  exists r,
    fold_left (fun acc x => a <- acc ;; add a x) xs (Ok acc) = Ok r /\
    mag (B + Z.of_nat (length xs) * int_limit) r.
Proof.
  induction xs as [| x xs IH]; intros acc B Hxs Hacc HB0 HB.
  - exists acc. split; [reflexivity |].
    cbn [length]. change (Z.of_nat 0) with 0. now rewrite Z.mul_0_l, Z.add_0_r.
  - inversion Hxs as [| ? ? Hx Hxs']; subst.
    cbn [length] in *. rewrite Nat2Z.inj_succ in *.
    assert (0 <= int_limit) as L0 by (now destruct limits).
    assert (0 <= Z.of_nat (length xs) * int_limit)
      by (apply Z.mul_nonneg_nonneg; lia).
    destruct (add_ok _ _ _ _ Hacc Hx) as (a & Ea & Ma); [lia | limit |].
    cbn [fold_left bind result_Monad]. rewrite Ea.
    destruct (IH a (B + int_limit) Hxs' Ma) as (r & Er & Mr); [lia | lia |].
    exists r. split; [exact Er |].
    eapply mag_weaken; [exact Mr | lia].
Qed.

Lemma total_fees_ok : forall ts,
  forallb small_trade ts = true -> Z.of_nat (length ts) <= int_limit ->
  exists total, total_fees ts = Ok total /\ mag (int_limit * int_limit) total.
Proof.
  intros ts Hts Hlen. unfold total_fees, sum.
  assert (0 <= int_limit) as L0 by (now destruct limits).
  assert (int_limit * int_limit < float_limit) as LL
    by (now destruct limits as (_ & _ & _ & _ & _ & _ & _ & _ & _ & ? & _)).
  destruct (sum_ok (map (fun t => get (fees t) (Int 0)) ts) (Int 0) 0)
    as (r & Er & Mr).
  - apply Forall_forall. intros x Hx. apply in_map_iff in Hx.
    destruct Hx as (t & <- & Ht). rewrite forallb_forall in Hts.
    now apply small_trade_mag, Hts.
  - unfold mag. change (Z.abs 0) with 0. lia.
  - lia.
  - rewrite length_map.
    pose proof (Z.mul_le_mono_nonneg_r _ _ int_limit L0 Hlen). lia.
  - exists r. split; [exact Er |]. rewrite length_map in Mr.
    eapply mag_weaken; [exact Mr |].
    pose proof (Z.mul_le_mono_nonneg_r _ _ int_limit L0 Hlen). lia.
Qed.

Lemma realism_check_yields : forall data tr ts pf,
  mag int_limit tr -> mag int_limit (get (winRate pf) (Int 0)) ->
  mag int_limit (get (maxDrawdown data) (Int 0)) ->
  forallb small_trade ts = true -> Z.of_nat (length ts) <= int_limit ->
  yields (realism_check data tr ts pf) (fun _ => True).
Proof.
  intros data tr ts pf Htr Hw Hdd Hts Hlen. unfold realism_check.
  eapply yields_then; [now apply yields_print |]. intros _.
  eapply yields_bind with (Q := fun _ => True).
  { destruct (gt (abs tr) (Int 100)); yield_steps. }
  intros issues1 _.
  eapply yields_bind.
  { apply yields_lift.
    apply (mul_ok int_limit 100 _ (Int 100) Hw);
      [unfold mag; lia | limit | limit]. }
  cbv beta. intros win_rate Mwr.
  eapply yields_bind with (Q := fun _ => True).
  { destruct (lt win_rate (Int 20) || gt win_rate (Int 80)); yield_steps. }
  intros issues2 _.
  eapply yields_bind with (Q := fun _ => True).
  { destruct (length ts =? 0)%nat; yield_steps. }
  intros issues3 _.
  eapply yields_bind with (Q := fun _ => True).
  { destruct (gt (get (maxDrawdown data) (Int 0)) (Int 50)); yield_steps. }
  intros issues4 _.
  destruct (total_fees_ok ts Hts Hlen) as (total & Et & Mt).
  eapply yields_bind;
    [apply yields_lift; eexists; split; [exact Et | exact Mt] |].
  cbv beta. clear total Et Mt. intros total Mt.
  eapply yields_bind with (Q := fun _ => True).
  { destruct (eq total (Int 0)); yield_steps. }
  intros issues5 _. now apply yields_ret.
Qed.

(** A well-sized document runs to the end. *)
Lemma run_completes : forall d,
  well_sized d = true -> printable_sides d = true ->
  exists out, run d = (Ok tt, out).
Proof.
  intros d H Hsides. unfold well_sized in H.
  repeat (apply andb_true_iff in H; destruct H as [H ?]).
  apply Z.leb_le in H3.
  repeat match goal with
         | E : small_field _ = true |- _ => apply small_field_mag in E
         end.
  rewrite run_sections.
  destruct (yields_exec _ _ _ d
              (print_summary_yields d _ _ _ (get (trades d) [])
                 (get (performance d) no_performance) H H7 H6 H1 H5 H0))
    as ([] & o1 & -> & _).
  destruct (yields_exec _ _ _ d (verify_pnl_yields _ _ H H4 Hsides))
    as ([] & o2 & -> & _).
  destruct (yields_exec _ _ _ d (verify_equity_curve_yields d _ H7 H2))
    as ([] & o3 & -> & _).
  destruct (yields_exec _ _ _ d
              (realism_check_yields d _ _ _ H6 H1 H5 H4 H3))
    as (issues & o4 & -> & _).
  rewrite final_summary_exec. now eexists.
Qed.

(** ** Absent fields and explicit defaults *)










(** ** The scenarios of the specification *)

Example scenario_A_report :
  run scenario_A =
  (Ok tt,
   [Rule; Banner; Rule; SummaryHeader; InitialEquity 1000; FinalEquity 1050;
    TotalReturn 5; TotalTrades 1; WinRate 60; MaxDrawdown 3; SharpeRatio 1.2;
    PnlHeader; TradeHeader 1 "SELL"; TradeSizes 1 100 110;
    TradePnl 10 0.5 9.5; TradeReported 9.5 true; TradeEquity 1009.5;
    AllVerified; CurveHeader; CurvePoints 2; CurveStart 1000; CurveEnd 1050;
    CurveExpected 1050; CurveMatches; RealismHeader; ReturnReasonable 5;
    WinRateReasonable 60; TradesGenerated 1; DrawdownReasonable 3;
    FeesDeducted 0.5; AllChecksPassed; ClosingRule]).
Proof. vm_compute. reflexivity. Qed.

Example scenario_B_report :
  run scenario_B =
  (Ok tt,
   [Rule; Banner; Rule; SummaryHeader; InitialEquity 1000; FinalEquity 1050;
    TotalReturn 5; TotalTrades 1; WinRate 60; MaxDrawdown 3; SharpeRatio 1.2;
    PnlHeader; Mismatch 1; MismatchDetail 9.5 5 4.5; TradeHeader 1 "SELL";
    TradeSizes 1 100 110; TradePnl 10 0.5 9.5; TradeReported 5 false;
    TradeEquity 1009.5; FoundMismatches 1; CurveHeader; CurvePoints 2;
    CurveStart 1000; CurveEnd 1050; CurveExpected 1050; CurveMatches;
    RealismHeader; ReturnReasonable 5; WinRateReasonable 60;
    TradesGenerated 1; DrawdownReasonable 3; FeesDeducted 0.5;
    AllChecksPassed; ClosingRule]).
Proof. vm_compute. reflexivity. Qed.

Example scenario_C_report :
  run scenario_C =
  (Ok tt,
   [Rule; Banner; Rule; SummaryHeader; InitialEquity 0; FinalEquity 0;
    TotalReturn 0; TotalTrades 0; WinRate 90; MaxDrawdown 60; SharpeRatio 0;
    PnlHeader; AllVerified; CurveHeader; RealismHeader; ReturnReasonable 0;
    IssuesFound; IssueLine (UnusualWinRate 90); IssueLine NoTrades;
    IssueLine (ExtremeDrawdown 60); IssueLine NoFees; ClosingRule]).
Proof. vm_compute. reflexivity. Qed.

Example scenario_D_report :
  run scenario_D =
  (Ok tt,
   [Rule; Banner; Rule; SummaryHeader; InitialEquity 1000; FinalEquity 1050;
    TotalReturn 5; TotalTrades 1; WinRate 60; MaxDrawdown 3; SharpeRatio 1.2;
    PnlHeader; TradeHeader 1 "SELL"; TradeSizes 1 100 110;
    TradePnl 10 0.5 9.5; TradeReported 9.5 true; TradeEquity 1009.5;
    AllVerified; CurveHeader; RealismHeader; ReturnReasonable 5;
    WinRateReasonable 60; TradesGenerated 1; DrawdownReasonable 3;
    FeesDeducted 0.5; AllChecksPassed; ClosingRule]).
Proof. vm_compute. reflexivity. Qed.

(** The conversion of an int raises from [2 ^ 1024 - 2 ^ 970] on, the
    first int that rounds to [2 ^ 1024]. *)
Example float_of_int_largest :
  float_of_int (2 ^ 1024 - 2 ^ 970 - 1) = Ok 0x1.fffffffffffffp+1023%float /\
  float_of_int (2 ^ 1024 - 2 ^ 970) = Raise OverflowError.
Proof. split; vm_compute; reflexivity. Qed.

(** The tolerance is the float nearest to one hundredth. *)
Example tolerance_value :
  tolerance = Flt (SF2Prim (SFdiv prec emax (Prim2SF 1) (Prim2SF 100))) /\
  Prim2SF 0.01 = S754_finite false 5764607523034235 (-59).
Proof. split; vm_compute; reflexivity. Qed.

(** ** The frame of a run *)

(** C8 (as the script has it): from every state of the process, a run of
    the script under the interpreter leaves the parsed input record
    exactly as it was, every field of it and of every trade in it, writes
    no file and sends nothing over the network, and standard output
    afterwards is what it was before followed by the report.  Standard
    error is left as it was by a run that completes; a run that aborts
    adds the traceback of its exception to it and ends with status 1. *)
Theorem C8_effects_of_a_run : forall w,
  document (snd (python main w)) = document w /\
  files (snd (python main w)) = files w /\
  network (snd (python main w)) = network w /\
  stdout (snd (python main w)) = stdout w ++ snd (run (document w)) /\
  stderr (snd (python main w)) =
    stderr w ++
    match fst (run (document w)) with
    | Ok _ => []
    | Raise e => [e]
    end /\
  fst (python main w) = exit_status (fst (run (document w))).
Proof.
  intros w. destruct (writer_report (document w)) as [r [out H]].
  unfold run, python. rewrite !main_report.
  change (document (boot (document w))) with (document w).
  rewrite (H w), (H (boot (document w))).
  destruct r as [[] | e]; cbn; now rewrite ?app_nil_r.
Qed.

(** C8, as worded, fails on every run that aborts: on a document whose
    initial equity is too large for a float the process starts with an
    empty standard error and ends with a traceback on it. *)
Lemma C8_abort_writes_stderr :
  stderr (boot huge_equity) = [] /\
  stderr (snd (python main (boot huge_equity))) = [OverflowError] /\
  fst (python main (boot huge_equity)) = 1.
Proof. repeat split; vm_compute; reflexivity. Qed.

(** ** The P&L verification *)

(** C1: [check_trade] is the body that the loop runs on each of the first
    ten trades.  The net P&L it recomputes for a trade is
    [(exitPrice - entryPrice) * size - fees] when the side is "SELL", and
    [(entryPrice - exitPrice) * size - fees] when the side is "BUY", absent,
    or any other string; this is the value that a completed iteration has
    added to the running equity.  The [slippage] field of the trade has no
    part in the iteration. *)
Theorem C1_recomputed_net_pnl : forall i trade equity errors,
  (get (side trade) "BUY"%string = "SELL"%string ->
     recomputed_net_pnl trade = long_net_pnl trade) /\
  (get (side trade) "BUY"%string <> "SELL"%string ->
     recomputed_net_pnl trade = short_net_pnl trade) /\
  (forall s w,
     check_trade (i, set_slippage s trade) (equity, errors) w
       = check_trade (i, trade) (equity, errors) w) /\
  (forall d equity' errors' out,
     exec (check_trade (i, trade) (equity, errors)) d
       = (Ok (equity', errors'), out) ->
     exists net,
       recomputed_net_pnl trade = Ok net /\ add equity net = Ok equity').
Proof.
  intros i trade equity errors. split; [| split; [| split]].
  - intros Hs. unfold recomputed_net_pnl, raw_pnl, long_net_pnl, net_pnl.
    rewrite Hs. cbn [String.eqb Ascii.eqb Bool.eqb].
    now rewrite result_bind_assoc.
  - intros Hs. unfold recomputed_net_pnl, raw_pnl, short_net_pnl, net_pnl.
    apply String.eqb_neq in Hs. rewrite Hs.
    now rewrite result_bind_assoc.
  - intros s w. destruct trade. reflexivity.
  - intros d equity' errors' out H.
    apply exec_world in H; [| apply writer_check_trade].
    apply check_trade_step in H.
    destruct H as (net & diff & o & Hn & Ha & _).
    now exists net.
Qed.

Lemma C1_recomputed_net_pnl_scenario_A :
  recomputed_net_pnl scenario_A_trade = long_net_pnl scenario_A_trade /\
  exists net,
    recomputed_net_pnl scenario_A_trade = Ok net /\
    add (Int 1000) net = Ok (Flt 1009.5).
Proof.
  destruct (C1_recomputed_net_pnl 0 scenario_A_trade (Int 1000) 0)
    as (Hsell & _ & _ & Hrun).
  split.
  - apply Hsell. reflexivity.
  - apply (Hrun empty_document (Flt 1009.5) 0%nat
             [TradeHeader 1 "SELL"; TradeSizes 1 100 110; TradePnl 10 0.5 9.5;
              TradeReported 9.5 true; TradeEquity 1009.5]).
    vm_compute. reflexivity.
Defined.

(** C3 (as the script has it): in a P&L verification that completes, a
    trade among the first ten is counted and gets its mismatch block
    exactly when it is flagged, that is when [abs(net_pnl - reported_pnl)]
    is not below 0.01.  For a difference that is a number this is the same
    as the difference being at least 0.01; a difference that is a NaN is
    flagged as well.  The error counter ends as the number of flagged
    trades; the all-verified message is printed when it is zero, and
    otherwise the count is printed. *)
Theorem C3_mismatch_detection : forall ie ts d out,
  exec (verify_pnl ie ts) d = (Ok tt, out) ->
  let errors := length (filter flagged (firstn 10 ts)) in
  (forall k,
     In (Mismatch (k + 1)) out <->
     exists t, nth_error (firstn 10 ts) k = Some t /\ flagged t = true) /\
  (forall t, In t (firstn 10 ts) ->
     exists diff,
       recomputed_diff t = Ok diff /\
       (flagged t = true <-> lt diff tolerance = false) /\
       (is_nan diff = false ->
          (flagged t = true <-> ge diff tolerance = true)) /\
       (is_nan diff = true -> flagged t = true)) /\
  (errors = 0%nat ->
     In AllVerified out /\ forall n, ~ In (FoundMismatches n) out) /\
  (errors <> 0%nat ->
     In (FoundMismatches errors) out /\ ~ In AllVerified out /\
     forall n, In (FoundMismatches n) out -> n = errors).
Proof.
  intros ie ts d out H errors.
  apply verify_pnl_inv in H. destruct H as (equity & n & lo & Hloop & ->).
  apply pnl_loop_inv in Hloop.
  destruct Hloop as (_ & Hn & Hall & Hm & _ & Hl).
  fold errors in Hn. subst n.
  assert (forall l, In l lo -> is_loop_line l = true) as Hlo
    by (now apply forallb_forall).
  split; [| split; [| split]].
  - intros k.
    transitivity (In (Mismatch (k + 1)) (filter is_mismatch lo)).
    { cbn [In]. rewrite in_app_iff, filter_In. cbn [In is_mismatch]. split.
      - intros [E | [E | [E | []]]]; try discriminate E.
        + now split.
        + destruct (errors =? 0)%nat; discriminate E.
      - intros [E _]. right. now left. }
    rewrite Hm, in_map_iff. split.
    + intros [[i t] [E Hin]]. cbn in E. apply filter_In in Hin.
      destruct Hin as [Hin Hf]. apply In_enumerate in Hin. cbn in Hf.
      assert (i = k) by (inversion E; lia). subst i. now exists t.
    + intros [t [Hk Hf]]. exists (k, t). split; [reflexivity |].
      apply filter_In. split; [now apply In_enumerate | exact Hf].
  - intros t Hin. destruct (Hall t Hin) as [diff Hd]. exists diff.
    split; [exact Hd |]. unfold flagged. rewrite Hd.
    split; [apply negb_true_iff |]. split.
    + intros Hnan. rewrite (lt_ge diff tolerance Hnan eq_refl).
      rewrite negb_involutive. tauto.
    + intros Hnan. unfold lt.
      assert (compare diff tolerance = None) as ->
        by (apply compare_None; now left).
      reflexivity.
  - intros E. rewrite E. cbn [Nat.eqb]. split.
    + right. apply in_or_app. right. now left.
    + intros n [C | C]; [discriminate C |]. apply in_app_or in C.
      destruct C as [C | [C | []]]; [| discriminate C].
      apply Hlo in C. discriminate C.
  - intros E. apply Nat.eqb_neq in E. rewrite E. repeat split.
    + right. apply in_or_app. right. now left.
    + intros [C | C]; [discriminate C |]. apply in_app_or in C.
      destruct C as [C | [C | []]]; [| discriminate C].
      apply Hlo in C. discriminate C.
    + intros n [C | C]; [discriminate C |]. apply in_app_or in C.
      destruct C as [C | [C | []]]; [| now inversion C].
      apply Hlo in C. discriminate C.
Qed.

Lemma C3_mismatch_detection_scenario_B :
  In (Mismatch (0 + 1)) 
     [PnlHeader; Mismatch 1; MismatchDetail 9.5 5 4.5; TradeHeader 1 "SELL";
      TradeSizes 1 100 110; TradePnl 10 0.5 9.5; TradeReported 5 false;
      TradeEquity 1009.5; FoundMismatches 1] <->
  exists t, nth_error (firstn 10 [scenario_B_trade]) 0 = Some t /\
            flagged t = true.
Proof.
  refine (proj1 (C3_mismatch_detection (Int 1000) [scenario_B_trade]
                   empty_document _ _) 0%nat).
  vm_compute. reflexivity.
Defined.

(** C3, as worded, fails on a difference that is a NaN: the trade of
    [overflowing_trade] is counted and gets its mismatch block, and yet its
    difference is not at least 0.01. *)
Lemma C3_flagged_but_not_ge :
  exists out diff,
    exec (verify_pnl (Int 0) [overflowing_trade]) empty_document = (Ok tt, out) /\
    In (Mismatch 1) out /\ In (FoundMismatches 1) out /\
    recomputed_diff overflowing_trade = Ok diff /\
    ge diff tolerance = false.
Proof.
  eexists _, _. split; [vm_compute; reflexivity |].
  split; [cbn; auto |]. split; [cbn; auto 12 |].
  split; [vm_compute; reflexivity |]. vm_compute. reflexivity.
Qed.

(** C6: throughout the loop the running equity is the initial equity plus
    the recomputed net P&L of the trades processed so far, added in the
    order of iteration.  After any number [k] of completed iterations the
    accumulator holds exactly that sum; a loop that completes has passed
    through each of these intermediate states; and nothing of the document,
    the equity curve included, enters the loop. *)
Theorem C6_running_equity : forall ie ts d,
  (forall k equity errors out,
     exec (for_each check_trade (firstn k (enumerate (firstn 10 ts)))
             (ie, 0%nat)) d = (Ok (equity, errors), out) ->
     equity_after ie (firstn k (firstn 10 ts)) = Ok equity) /\
  (forall equity errors out,
     exec (pnl_loop ie ts) d = (Ok (equity, errors), out) ->
     forall k, exists equity_k errors_k out_k,
       exec (for_each check_trade (firstn k (enumerate (firstn 10 ts)))
               (ie, 0%nat)) d = (Ok (equity_k, errors_k), out_k)) /\
  (forall c, exec (pnl_loop ie ts) (set_equityCurve c d)
             = exec (pnl_loop ie ts) d).
Proof.
  intros ie ts d. split; [| split].
  - intros k equity errors out H.
    apply exec_world in H;
      [| apply writer_for_each; intros; apply writer_check_trade].
    apply for_each_check_trade in H. destruct H as (o & _ & He & _).
    now rewrite firstn_enumerate, map_snd_enumerate in He.
  - intros equity errors out H k.
    apply exec_world in H; [| apply writer_pnl_loop].
    unfold pnl_loop in H.
    rewrite <- (firstn_skipn k (enumerate (firstn 10 ts))) in H.
    rewrite for_each_app in H. cbn [bind M_Monad] in H.
    destruct (for_each check_trade (firstn k (enumerate (firstn 10 ts)))
                (ie, 0%nat) (boot d)) as [[[e n] | e] w1] eqn:E;
      [| discriminate H].
    apply writer_run in E;
      [| apply writer_for_each; intros; apply writer_check_trade].
    destruct E as (o & _ & E). now exists e, n, o.
  - intros c. apply exec_any_document, writer_pnl_loop.
Qed.

Lemma C6_running_equity_scenario_A :
  equity_after (Int 1000) (firstn 1 (firstn 10 [scenario_A_trade]))
    = Ok (Flt 1009.5).
Proof.
  refine (proj1 (C6_running_equity (Int 1000) [scenario_A_trade] empty_document)
            1%nat (Flt 1009.5) 0%nat
            [TradeHeader 1 "SELL"; TradeSizes 1 100 110; TradePnl 10 0.5 9.5;
             TradeReported 9.5 true; TradeEquity 1009.5] _).
  vm_compute. reflexivity.
Defined.

(** C5: whatever the length of the trades sequence, the loop runs on the
    first [min 10 length] trades, numbered from 0 in their order, and on
    nothing else: a trade past the tenth changes nothing in it.  A loop
    that completes has counted the flagged trades among those and has
    printed the detailed block of the first [min 3 length] trades and of
    no other.  The fee check of the realism section tests the sum of the
    fees of the whole sequence: a section that completes has the no-fees
    issue exactly when that sum equals zero and otherwise prints it, and
    every trade appended to the sequence, whatever its position, is added
    to the sum. *)
Theorem C5_sampling : forall ie ts,
  length (enumerate (firstn 10 ts)) = Nat.min 10 (length ts) /\
  (forall k,
     nth_error (enumerate (firstn 10 ts)) k =
     if (k <? 10)%nat then option_map (pair k) (nth_error ts k) else None) /\
  (forall extra w,
     (10 <= length ts)%nat ->
     pnl_loop ie (ts ++ extra) w = pnl_loop ie ts w) /\
  (forall d equity errors out,
     exec (pnl_loop ie ts) d = (Ok (equity, errors), out) ->
     errors = length (filter flagged (firstn 10 ts)) /\
     filter is_trade_header out = map trade_header (enumerate (firstn 3 ts)) /\
     length (filter is_trade_header out) = Nat.min 3 (length ts)) /\
  (forall data tr pf d issues out,
     exec (realism_check data tr ts pf) d = (Ok issues, out) ->
     exists total,
       total_fees ts = Ok total /\
       (In NoFees issues <-> eq total (Int 0) = true) /\
       (eq total (Int 0) = false ->
        exists v, to_float total = Ok v /\ In (FeesDeducted v) out)) /\
  total_fees [] = Ok (Int 0) /\
  (forall t,
     total_fees (ts ++ [t]) = (a <- total_fees ts ;; add a (get (fees t) (Int 0)))).
Proof.
  intros ie ts. split; [| split; [| split; [| split; [| split; [| split]]]]].
  - now rewrite length_enumerate, length_firstn.
  - intros k. rewrite nth_error_enumerate, nth_error_firstn.
    now destruct (k <? 10)%nat.
  - intros extra w Hlen. unfold pnl_loop.
    now rewrite firstn_app, (proj2 (Nat.sub_0_le 10 (length ts)) Hlen),
      firstn_O, app_nil_r.
  - intros d equity errors out H. apply pnl_loop_inv in H.
    destruct H as (_ & Hn & _ & _ & Hh & _).
    rewrite filter_index_enumerate, firstn_firstn in Hh. cbn [Nat.min] in Hh.
    split; [exact Hn |]. split; [exact Hh |].
    now rewrite Hh, length_map, length_enumerate, length_firstn.
  - intros data tr pf d issues out H. apply realism_check_inv in H.
    destruct H as (wr & total & v1 & v2 & v4 & fl & _ & Ht & _ & _ & _ & Hfl & -> & ->).
    exists total. split; [exact Ht |].
    destruct (eq total (Int 0)) eqn:Et.
    + split; [| intros C; discriminate C].
      split; [reflexivity |]. intros _.
      rewrite !in_app_iff. do 4 right. now left.
    + split.
      * split; [| intros C; discriminate C]. intros C. exfalso.
        rewrite !in_app_iff in C.
        repeat match type of C with
               | context [if ?b then _ else _] => destruct b
               end;
          cbn [In] in C;
          repeat match goal with
                 | H : _ \/ _ |- _ => destruct H
                 | H : False |- _ => destruct H
                 end; discriminate.
      * intros _. destruct (Hfl eq_refl) as (v5 & Hv5 & ->).
        exists v5. split; [exact Hv5 |].
        right. rewrite !in_app_iff. do 4 right. now left.
  - reflexivity.
  - intros t. apply total_fees_snoc.
Qed.

Lemma C5_sampling_twelve_trades :
  (0%nat = length (filter flagged (firstn 10 twelve_trades)) /\
   filter is_trade_header
     [TradeHeader 1 "SELL"; TradeSizes 1 100 110; TradePnl 10 0 10;
      TradeReported 10 true; TradeEquity 1010;
      TradeHeader 2 "SELL"; TradeSizes 1 100 110; TradePnl 10 0 10;
      TradeReported 10 true; TradeEquity 1020;
      TradeHeader 3 "SELL"; TradeSizes 1 100 110; TradePnl 10 0 10;
      TradeReported 10 true; TradeEquity 1030]
     = map trade_header (enumerate (firstn 3 twelve_trades)) /\
   length (filter is_trade_header
     [TradeHeader 1 "SELL"; TradeSizes 1 100 110; TradePnl 10 0 10;
      TradeReported 10 true; TradeEquity 1010;
      TradeHeader 2 "SELL"; TradeSizes 1 100 110; TradePnl 10 0 10;
      TradeReported 10 true; TradeEquity 1020;
      TradeHeader 3 "SELL"; TradeSizes 1 100 110; TradePnl 10 0 10;
      TradeReported 10 true; TradeEquity 1030])
     = Nat.min 3 (length twelve_trades)) /\
  (exists total,
     total_fees twelve_trades = Ok total /\
     (In NoFees [UnusualWinRate 0] <-> eq total (Int 0) = true) /\
     (eq total (Int 0) = false ->
      exists v,
        to_float total = Ok v /\
        In (FeesDeducted v)
          [RealismHeader; ReturnReasonable 0; TradesGenerated 12;
           DrawdownReasonable 0; FeesDeducted 6])).
Proof.
  destruct (C5_sampling (Int 1000) twelve_trades) as (_ & _ & _ & Hloop & Hfees & _).
  split.
  - apply (Hloop empty_document (Int 1100) 0%nat). vm_compute. reflexivity.
  - apply (Hfees empty_document (Int 0) no_performance empty_document).
    vm_compute. reflexivity.
Defined.

(** On the twelve trades the two samples and the whole part ways: the
    first ten pay no fee, yet the fee check passes on the fees of the last
    two; the last two report a wrong P&L, yet the loop, which stops after
    the tenth, finds every P&L verified. *)
Example fees_past_the_tenth_trade :
  total_fees (firstn 10 twelve_trades) = Ok (Int 0) /\
  exec (realism_check empty_document (Int 0) twelve_trades no_performance)
    empty_document
  = (Ok [UnusualWinRate 0],
     [RealismHeader; ReturnReasonable 0; TradesGenerated 12;
      DrawdownReasonable 0; FeesDeducted 6]) /\
  forallb flagged (skipn 10 twelve_trades) = true /\
  exec (verify_pnl (Int 1000) twelve_trades) empty_document
  = (Ok tt,
     [PnlHeader;
      TradeHeader 1 "SELL"; TradeSizes 1 100 110; TradePnl 10 0 10;
      TradeReported 10 true; TradeEquity 1010;
      TradeHeader 2 "SELL"; TradeSizes 1 100 110; TradePnl 10 0 10;
      TradeReported 10 true; TradeEquity 1020;
      TradeHeader 3 "SELL"; TradeSizes 1 100 110; TradePnl 10 0 10;
      TradeReported 10 true; TradeEquity 1030;
      AllVerified]).
Proof. repeat split; vm_compute; reflexivity. Qed.

(** ** The equity curve verification *)

(** C2 (as the script has it): the header line of the equity curve section
    is printed in every run of the section; the rest of the section is
    printed if and only if [equityCurve] is non-empty.  With an empty or
    absent curve the section is the header alone.  With a non-empty curve
    a section that completes prints the point count, the first value, the
    last value, the expected final equity and then the match line when
    [abs(equityCurve[-1] - finalEquity) < 0.01], the mismatch line
    otherwise. *)
Theorem C2_equity_curve_section : forall data fe d r out,
  exec (verify_equity_curve data fe) d = (r, out) ->
  let equity_curve := get (equityCurve data) [] in
  exists body,
    out = CurveHeader :: body /\
    (body = [] <-> equity_curve = []) /\
    (equity_curve = [] -> r = Ok tt) /\
    (r = Ok tt ->
     forall first rest, equity_curve = first :: rest ->
     exists vs ve vx diff,
       to_float first = Ok vs /\
       to_float (List.last equity_curve first) = Ok ve /\
       to_float fe = Ok vx /\
       sub (List.last equity_curve first) fe = Ok diff /\
       body = [CurvePoints (length equity_curve); CurveStart vs; CurveEnd ve;
               CurveExpected vx;
               if lt (abs diff) tolerance then CurveMatches
               else CurveMismatch]).
Proof.
  intros data fe d r out H equity_curve.
  apply verify_equity_curve_inv in H. fold equity_curve in H.
  destruct equity_curve as [| first rest] eqn:E.
  - destruct H as [-> ->]. exists []. repeat split; try reflexivity.
    intros _ first rest C. discriminate C.
  - destruct H as (more & -> & H). eexists. split; [reflexivity |].
    split; [split; intros C; discriminate C |].
    split; [intros C; discriminate C |].
    intros Hr first' rest' C. inversion C; subst first' rest'.
    destruct (H Hr) as (vs & ve & vx & diff & H1 & H2 & H3 & H4 & ->).
    now exists vs, ve, vx, diff.
Qed.

Lemma C2_equity_curve_section_scenario_A :
  exists body,
    [CurveHeader; CurvePoints 2; CurveStart 1000; CurveEnd 1050;
     CurveExpected 1050; CurveMatches] = CurveHeader :: body /\
    (body = [] <-> get (equityCurve scenario_A) [] = []).
Proof.
  destruct (C2_equity_curve_section scenario_A (Int 1050) scenario_A (Ok tt)
              [CurveHeader; CurvePoints 2; CurveStart 1000; CurveEnd 1050;
               CurveExpected 1050; CurveMatches])
    as (body & H1 & H2 & _).
  - vm_compute. reflexivity.
  - exists body. now split.
Defined.

(** C2, as worded, fails on a document without [equityCurve]: the section
    still produces a line of output, its header. *)
Lemma C2_header_without_curve :
  get (equityCurve empty_document) [] = [] /\
  exec (verify_equity_curve empty_document (Int 0)) empty_document
    = (Ok tt, [CurveHeader]) /\
  snd (exec (verify_equity_curve empty_document (Int 0)) empty_document) <> [].
Proof. repeat split. discriminate. Qed.

(** ** The realism checks *)

(** C4 (as the script has it): when the realism section runs to its end,
    each of the five checks has run and has either appended one issue or
    printed one line, and the length of the issues list is the number of
    checks whose test fires:
    [abs(totalReturnPct) > 100]; [win_rate < 20 or win_rate > 80], with 20
    and 80 themselves passing; no trade; [maxDrawdown > 50]; and a total of
    the fees equal to zero.  On values that are not NaN this is the number
    of checks whose pass condition fails.  In scenario C the section
    completes with exactly the four issues win rate, no trades, drawdown
    and no fees. *)
Theorem C4_issue_count :
  (forall data tr ts pf d issues out,
     exec (realism_check data tr ts pf) d = (Ok issues, out) ->
     let max_dd := get (maxDrawdown data) (Int 0) in
     exists win_rate total,
       mul (get (winRate pf) (Int 0)) (Int 100) = Ok win_rate /\
       total_fees ts = Ok total /\
       length issues = fired_checks tr win_rate ts max_dd total /\
       (length issues + length out = 6)%nat /\
       (is_nan tr = false -> is_nan win_rate = false ->
        is_nan max_dd = false ->
        length issues = failed_checks tr win_rate ts max_dd total)) /\
  (forall x, x = Int 20 \/ x = Int 80 \/ x = Flt 20 \/ x = Flt 80 ->
     lt x (Int 20) || gt x (Int 80) = false /\ win_rate_passes x = true) /\
  exec (realism_check scenario_C (get (totalReturnPct scenario_C) (Int 0))
          (get (trades scenario_C) [])
          (get (performance scenario_C) no_performance)) scenario_C
    = (Ok [UnusualWinRate 90; NoTrades; ExtremeDrawdown 60; NoFees],
       [RealismHeader; ReturnReasonable 0]).
Proof.
  split; [| split].
  - intros data tr ts pf d issues out H max_dd.
    apply realism_check_inv in H. fold max_dd in H.
    destruct H as (wr & total & v1 & v2 & v4 & fl & Hwr & Ht & _ & _ & _ & Hfl & Hi & Ho).
    exists wr, total. split; [exact Hwr |]. split; [exact Ht |].
    assert (length issues = fired_checks tr wr ts max_dd total) as Hlen.
    { subst issues. unfold fired_checks. rewrite !length_app.
      destruct (gt (abs tr) (Int 100)), (lt wr (Int 20) || gt wr (Int 80)),
        (length ts =? 0)%nat, (gt max_dd (Int 50)), (eq total (Int 0));
        reflexivity. }
    split; [exact Hlen |].
    split.
    { subst issues out. cbn [length]. rewrite !length_app.
      destruct (eq total (Int 0)) eqn:Et.
      - destruct (gt (abs tr) (Int 100)), (lt wr (Int 20) || gt wr (Int 80)),
          (length ts =? 0)%nat, (gt max_dd (Int 50)); reflexivity.
      - destruct (Hfl eq_refl) as (v5 & _ & ->).
        destruct (gt (abs tr) (Int 100)), (lt wr (Int 20) || gt wr (Int 80)),
          (length ts =? 0)%nat, (gt max_dd (Int 50)); reflexivity. }
    intros N1 N2 N3. rewrite Hlen. unfold fired_checks, failed_checks.
    unfold return_passes, win_rate_passes, trade_count_passes,
      drawdown_passes, fees_pass.
    rewrite (gt_le (abs tr) (Int 100)) by (now rewrite ?is_nan_abs).
    rewrite (gt_le max_dd (Int 50)) by (first [assumption | reflexivity]).
    rewrite (gt_le wr (Int 80)) by (first [assumption | reflexivity]).
    rewrite (lt_int_le wr 20) by assumption.
    rewrite negb_andb, negb_involutive.
    now destruct (length ts).
  - intros x [-> | [-> | [-> | ->]]]; vm_compute; now split.
  - vm_compute. reflexivity.
Qed.

Lemma C4_issue_count_scenario_C :
  exists win_rate total,
    mul (get (winRate (mkPerformance (Some (Flt 0.9)) None)) (Int 0)) (Int 100)
      = Ok win_rate /\
    total_fees [] = Ok total /\
    length [UnusualWinRate 90; NoTrades; ExtremeDrawdown 60; NoFees]
      = fired_checks (Int 0) win_rate [] (Int 60) total.
Proof.
  destruct (proj1 C4_issue_count scenario_C (Int 0) []
              (mkPerformance (Some (Flt 0.9)) None) scenario_C
              [UnusualWinRate 90; NoTrades; ExtremeDrawdown 60; NoFees]
              [RealismHeader; ReturnReasonable 0])
    as (wr & total & H1 & H2 & H3 & _ & _).
  - vm_compute. reflexivity.
  - now exists wr, total.
Defined.

(** C4, as worded, fails on a return that is a NaN: the return check does
    not append an issue, the list has three entries, and four of the five
    pass conditions fail. *)
Lemma C4_nan_return_is_not_an_issue :
  exists issues out,
    exec (realism_check empty_document (Flt nan) [] no_performance)
      empty_document = (Ok issues, out) /\
    length issues = 3%nat /\
    failed_checks (Flt nan) (Int 0) [] (Int 0) (Int 0) = 4%nat.
Proof.
  eexists _, _. split; [vm_compute; reflexivity |].
  split; vm_compute; reflexivity.
Qed.

(** ** Documents without trades *)

(** C9: on a document whose trades sequence is empty or absent, the P&L
    verification prints its header and then the all-verified message, and
    nothing else, although no trade was checked; the realism section, when
    it completes, has the no-trades issue in its list; and in a run that
    completes the report shows both, the all-verified message right after
    the P&L header and, later, the no-trades warning, and never the
    all-checks-passed summary.  A well-sized document of this kind does
    run to completion. *)
Theorem C9_verified_without_trades : forall d,
  get (trades d) [] = [] ->
  (forall ie d',
     exec (verify_pnl ie (get (trades d) [])) d'
       = (Ok tt, [PnlHeader; AllVerified])) /\
  (forall data tr pf d' issues out,
     exec (realism_check data tr (get (trades d) []) pf) d' = (Ok issues, out) ->
     In NoTrades issues) /\
  (forall out,
     run d = (Ok tt, out) ->
     exists pre post,
       out = pre ++ [PnlHeader; AllVerified] ++ post /\
       In (IssueLine NoTrades) post /\
       ~ In AllChecksPassed out) /\
  (well_sized d = true -> exists out, run d = (Ok tt, out)).
Proof.
  intros d Hts.
  cut ((forall ie d',
          exec (verify_pnl ie (get (trades d) [])) d'
            = (Ok tt, [PnlHeader; AllVerified])) /\
       (forall data tr pf d' issues out,
          exec (realism_check data tr (get (trades d) []) pf) d'
            = (Ok issues, out) ->
          In NoTrades issues) /\
       (forall out,
          run d = (Ok tt, out) ->
          exists pre post,
            out = pre ++ [PnlHeader; AllVerified] ++ post /\
            In (IssueLine NoTrades) post /\
            ~ In AllChecksPassed out)).
  { intros (H1 & H2 & H3). repeat split; try assumption.
    intros Hw. apply run_completes; [exact Hw |].
    unfold printable_sides. now rewrite Hts. }
  rewrite Hts.
  assert (forall data tr pf d' issues out,
            exec (realism_check data tr [] pf) d' = (Ok issues, out) ->
            In NoTrades issues) as Hrealism.
  { intros data tr pf d' issues out H. apply realism_check_inv in H.
    destruct H as (wr & total & v1 & v2 & v4 & fl & _ & _ & _ & _ & _ & _ & -> & _).
    cbn [length Nat.eqb]. apply in_or_app. right. apply in_or_app. right.
    now left. }
  split; [reflexivity |]. split; [exact Hrealism |].
  intros out H. pose proof H as Hrun. rewrite run_sections, Hts in H.
  destruct (exec (print_summary _ _ _ _ _ _) d) as [[[] | e] o1];
    [| discriminate H].
  change (exec (verify_pnl (get (initialEquity d) (Int 0)) []) d)
    with (Ok tt, [PnlHeader; AllVerified]) in H.
  destruct (exec (verify_equity_curve _ _) d) as [[[] | e] o3];
    [| discriminate H].
  destruct (exec (realism_check _ _ _ _) d) as [[issues | e] o4] eqn:E4;
    [| discriminate H].
  rewrite final_summary_exec in H. inversion H as [Hout]. clear H.
  pose proof (Hrealism _ _ _ _ _ _ E4) as Hin.
  exists ([Rule; Banner; Rule] ++ o1).
  eexists. split; [rewrite <- !app_assoc; reflexivity |]. split.
  - apply in_or_app. right. apply in_or_app. right. apply in_or_app. left.
    destruct issues as [| i issues]; [destruct Hin |].
    right. now apply in_map.
  - rewrite Hout. intros C.
    assert (In AllChecksPassed (snd (run d))) as C' by (now rewrite Hrun).
    apply all_checks_passed_inv in C'. destruct C' as [o4' C'].
    rewrite Hts in C'. apply Hrealism in C'. destruct C'.
Qed.

Lemma C9_verified_without_trades_scenario_C :
  exists pre post,
    [Rule; Banner; Rule; SummaryHeader; InitialEquity 0; FinalEquity 0;
     TotalReturn 0; TotalTrades 0; WinRate 90; MaxDrawdown 60; SharpeRatio 0;
     PnlHeader; AllVerified; CurveHeader; RealismHeader; ReturnReasonable 0;
     IssuesFound; IssueLine (UnusualWinRate 90); IssueLine NoTrades;
     IssueLine (ExtremeDrawdown 60); IssueLine NoFees; ClosingRule]
      = pre ++ [PnlHeader; AllVerified] ++ post /\
    In (IssueLine NoTrades) post.
Proof.
  destruct (proj1 (proj2 (proj2 (C9_verified_without_trades scenario_C eq_refl)))
              [Rule; Banner; Rule; SummaryHeader; InitialEquity 0; FinalEquity 0;
               TotalReturn 0; TotalTrades 0; WinRate 90; MaxDrawdown 60;
               SharpeRatio 0; PnlHeader; AllVerified; CurveHeader;
               RealismHeader; ReturnReasonable 0; IssuesFound;
               IssueLine (UnusualWinRate 90); IssueLine NoTrades;
               IssueLine (ExtremeDrawdown 60); IssueLine NoFees; ClosingRule])
    as (pre & post & H1 & H2 & _).
  - vm_compute. reflexivity.
  - now exists pre, post.
Defined.

(** ** The default win rate *)

(** C10 (as the script has it): on a document without the [performance]
    mapping or without its [winRate] key the win rate is the default 0, so
    a realism section that completes has the unusual-win-rate warning, of
    0.0 percent, in its list.  Hence a run that prints the
    all-checks-passed summary had an explicit [winRate], and the
    percentage computed from it, [winRate * 100] in the arithmetic of the
    script, is neither below 20 nor above 80. *)
Theorem C10_default_win_rate : forall d,
  (explicit_win_rate d = None ->
   forall tr ts d' issues out,
     exec (realism_check d tr ts (get (performance d) no_performance)) d'
       = (Ok issues, out) ->
     In (UnusualWinRate 0) issues) /\
  (In AllChecksPassed (snd (run d)) ->
   exists w pct,
     explicit_win_rate d = Some w /\
     mul w (Int 100) = Ok pct /\
     lt pct (Int 20) = false /\ gt pct (Int 80) = false).
Proof.
  intros d. split.
  - intros Hw tr ts d' issues out H.
    assert (get (winRate (get (performance d) no_performance)) (Int 0) = Int 0) as E.
    { unfold explicit_win_rate in Hw. destruct (performance d) as [p |]; cbn.
      - now rewrite Hw.
      - reflexivity. }
    apply realism_check_inv in H.
    destruct H as (wr & total & v1 & v2 & v4 & fl & Hwr & _ & _ & Hv2 & _ & _ & -> & _).
    rewrite E in Hwr. cbn in Hwr. inversion Hwr; subst wr.
    cbn in Hv2. inversion Hv2; subst v2.
    apply in_or_app. right. apply in_or_app. left. now left.
  - intros H. apply all_checks_passed_inv in H. destruct H as [o4 H].
    apply realism_check_inv in H.
    destruct H as (wr & total & v1 & v2 & v4 & fl & Hwr & _ & _ & _ & _ & _ & Hi & _).
    destruct (lt wr (Int 20) || gt wr (Int 80)) eqn:Hc.
    { destruct (gt (abs (get (totalReturnPct d) (Int 0))) (Int 100));
        discriminate Hi. }
    apply orb_false_iff in Hc. destruct Hc as [Hlt Hgt].
    unfold explicit_win_rate.
    destruct (performance d) as [p |]; cbn in Hwr.
    + destruct (winRate p) as [w |]; cbn in Hwr.
      * now exists w, wr.
      * inversion Hwr; subst wr. discriminate Hlt.
    + inversion Hwr; subst wr. discriminate Hlt.
Qed.

Lemma C10_default_win_rate_scenario_A :
  exists w pct,
    explicit_win_rate scenario_A = Some w /\
    mul w (Int 100) = Ok pct /\
    lt pct (Int 20) = false /\ gt pct (Int 80) = false.
Proof.
  apply (proj2 (C10_default_win_rate scenario_A)).
  vm_compute. auto 40.
Defined.

(** C10, as worded, fails one unit in the last place below 0.2: the win
    rate 0.19999999999999998 is explicit and less than one fifth, its
    product with 100 rounds to 20.0, and the run ends with the
    all-checks-passed summary. *)
Lemma C10_passes_below_one_fifth :
  exists w m e,
    explicit_win_rate just_below_20_percent = Some (Flt w) /\
    Prim2SF w = S754_finite false m e /\
    (5 * Zpos m < 2 ^ (- e))%Z /\
    lt (Flt w) (Flt 0.2) = true /\
    mul (Flt w) (Int 100) = Ok (Flt 20) /\
    In AllChecksPassed (snd (run just_below_20_percent)).
Proof.
  eexists _, _, _. split; [reflexivity |].
  split; [vm_compute; reflexivity |].
  split; [vm_compute; reflexivity |].
  split; [vm_compute; reflexivity |].
  split; [vm_compute; reflexivity |].
  vm_compute. auto 40.
Qed.

(** ** Completion *)




(** It fails as well on a document without any int whose first trade has
    a lone surrogate for its side: the header of the detailed block cannot
    be encoded, printing it raises [UnicodeEncodeError] and the exit
    status is 1. *)
Example surrogate_side_aborts :
  well_sized surrogate_side = true /\
  run surrogate_side =
    (Raise UnicodeEncodeError,
     [Rule; Banner; Rule; SummaryHeader; InitialEquity 0; FinalEquity 0;
      TotalReturn 0; TotalTrades 1; WinRate 0; MaxDrawdown 0; SharpeRatio 0;
      PnlHeader]) /\
  exit_status (fst (run surrogate_side)) = 1.
Proof. repeat split; vm_compute; reflexivity. Qed.

(** * Further properties of the script *)

(** ** The frame of a report *)

Lemma section_header_first : forall (A : Type) (h : line) (rest : M A) d r out,
  printable h = true ->
  emits is_body_line rest ->
  exec (print h ;; rest) d = (r, out) ->
  exists body, out = h :: body /\ forallb is_body_line body = true /\
               exec rest d = (r, body).
Proof.
  intros A h rest d r out Hp Hrest H.
  rewrite exec_bind, exec_print in H;
    [| first [ exact Hp | apply writer_print
             | intros _; eapply emits_writer; exact Hrest ] ..].
  destruct (exec rest d) as [r' body] eqn:E. inversion H; subst.
  exists body. split; [reflexivity |]. split; [| reflexivity].
  eapply emits_exec; eassumption.
Qed.

Lemma emits_body_check_trade : forall it vars,
  emits is_body_line (check_trade it vars).
Proof. intros [i t] [e n]. unfold check_trade. emits_steps. Qed.

Lemma print_summary_frame : forall data ie fe tr ts pf d r out,
  exec (print_summary data ie fe tr ts pf) d = (r, out) ->
  exists body, out = SummaryHeader :: body /\ forallb is_body_line body = true.
Proof.
  intros data ie fe tr ts pf d r out H. unfold print_summary in H.
  eapply section_header_first in H; [| reflexivity | emits_steps].
  destruct H as (body & H1 & H2 & _). now exists body.
Qed.

Lemma verify_pnl_frame : forall ie ts d r out,
  exec (verify_pnl ie ts) d = (r, out) ->
  exists body, out = PnlHeader :: body /\ forallb is_body_line body = true.
Proof.
  intros ie ts d r out H. unfold verify_pnl in H.
  eapply section_header_first in H; [| reflexivity |].
  - destruct H as (body & H1 & H2 & _). now exists body.
  - apply emits_bind.
    + unfold pnl_loop. apply emits_for_each. intros.
      apply emits_body_check_trade.
    + intros [e n]. emits_steps.
Qed.

Lemma verify_equity_curve_frame : forall data fe d r out,
  exec (verify_equity_curve data fe) d = (r, out) ->
  exists body, out = CurveHeader :: body /\ forallb is_body_line body = true.
Proof.
  intros data fe d r out H. unfold verify_equity_curve in H.
  eapply section_header_first in H; [| reflexivity | emits_steps].
  destruct H as (body & H1 & H2 & _). now exists body.
Qed.

Lemma realism_check_frame : forall data tr ts pf d r out,
  exec (realism_check data tr ts pf) d = (r, out) ->
  exists body, out = RealismHeader :: body /\ forallb is_body_line body = true.
Proof.
  intros data tr ts pf d r out H. unfold realism_check in H.
  eapply section_header_first in H; [| reflexivity | emits_steps].
  destruct H as (body & H1 & H2 & _). now exists body.
Qed.

Lemma filter_frame_body : forall body,
  forallb is_body_line body = true -> filter is_frame_line body = [].
Proof.
  induction body as [| l body IH]; intros H; [reflexivity |].
  cbn [forallb] in H. apply andb_true_iff in H. destruct H as [Hl H].
  cbn [filter]. unfold is_body_line in Hl. apply negb_true_iff in Hl.
  rewrite Hl. now apply IH.
Qed.

Lemma filter_frame_final_summary : forall issues d,
  filter is_frame_line (snd (exec (final_summary issues) d)) = [ClosingRule].
Proof.
  intros issues d. rewrite final_summary_exec. cbn [snd].
  rewrite filter_app. cbn [filter is_frame_line app].
  destruct issues as [| i issues]; [reflexivity |].
  cbn [filter is_frame_line].
  assert (filter is_frame_line (map IssueLine (i :: issues)) = []) as ->;
    [| reflexivity].
  induction (i :: issues) as [| x xs IH]; [reflexivity | exact IH].
Qed.

(** The frame lines of a run: the banner, then the header of every section
    that was entered, then the closing rule if the run completed. *)
Lemma run_frame : forall d,
  exists headers,
    filter is_frame_line (snd (run d)) =
      [Rule; Banner; Rule; SummaryHeader] ++ headers /\
    (exists rest, snd (run d) = [Rule; Banner; Rule; SummaryHeader] ++ rest) /\
    match fst (run d) with
    | Ok _ => headers = [PnlHeader; CurveHeader; RealismHeader; ClosingRule]
    | Raise _ => ~ In ClosingRule headers
    end.
Proof.
  intros d. rewrite run_sections.
  destruct (exec (print_summary _ _ _ _ _ _) d) as [r1 o1] eqn:E1.
  destruct (print_summary_frame _ _ _ _ _ _ _ _ _ E1) as (b1 & -> & B1).
  apply filter_frame_body in B1.
  destruct r1 as [[] | e].
  2: { exists []. cbn [snd fst app filter is_frame_line]. rewrite B1.
       repeat split; [now exists b1 | intros []]. }
  destruct (exec (verify_pnl _ _) d) as [r2 o2] eqn:E2.
  destruct (verify_pnl_frame _ _ _ _ _ E2) as (b2 & -> & B2).
  apply filter_frame_body in B2.
  destruct r2 as [[] | e].
  2: { exists [PnlHeader]. cbn [snd fst app filter is_frame_line].
       rewrite filter_app, B1. cbn [filter is_frame_line app]. rewrite B2.
       repeat split; [eexists; reflexivity |].
       intros [C | []]; discriminate C. }
  destruct (exec (verify_equity_curve _ _) d) as [r3 o3] eqn:E3.
  destruct (verify_equity_curve_frame _ _ _ _ _ E3) as (b3 & -> & B3).
  apply filter_frame_body in B3.
  destruct r3 as [[] | e].
  2: { exists [PnlHeader; CurveHeader]. cbn [snd fst app filter is_frame_line].
       rewrite !filter_app, B1. cbn [filter is_frame_line app].
       rewrite !filter_app, B2. cbn [filter is_frame_line app]. rewrite B3.
       repeat split; [eexists; reflexivity |].
       intros [C | [C | []]]; discriminate C. }
  destruct (exec (realism_check _ _ _ _) d) as [r4 o4] eqn:E4.
  destruct (realism_check_frame _ _ _ _ _ _ _ E4) as (b4 & -> & B4).
  apply filter_frame_body in B4.
  destruct r4 as [issues | e].
  2: { exists [PnlHeader; CurveHeader; RealismHeader].
       cbn [snd fst app filter is_frame_line].
       rewrite !filter_app, B1. cbn [filter is_frame_line app].
       rewrite !filter_app, B2. cbn [filter is_frame_line app].
       rewrite !filter_app, B3. cbn [filter is_frame_line app]. rewrite B4.
       repeat split; [eexists; reflexivity |].
       intros [C | [C | [C | []]]]; discriminate C. }
  pose proof (filter_frame_final_summary issues d) as F.
  rewrite final_summary_exec in *. cbn [snd fst] in *.
  exists [PnlHeader; CurveHeader; RealismHeader; ClosingRule].
  cbn [app filter is_frame_line].
  rewrite !filter_app, B1. cbn [filter is_frame_line app].
  rewrite !filter_app, B2. cbn [filter is_frame_line app].
  rewrite !filter_app, B3. cbn [filter is_frame_line app].
  rewrite !filter_app, B4. cbn [app].
  rewrite filter_app in F. rewrite F.
  repeat split. eexists; reflexivity.
Qed.

(** X1: every run, whatever its outcome, begins with the banner and the
    header of the summary.  A run that completes has printed the header of
    each of the four sections once, in their order, and ends with the
    closing rule; the closing rule is in the output exactly when the run
    completed, so a report without it is a report of an aborted run. *)
Theorem X1_report_frame : forall d,
  (exists rest, snd (run d) = [Rule; Banner; Rule; SummaryHeader] ++ rest) /\
  (fst (run d) = Ok tt ->
   filter is_frame_line (snd (run d)) =
     [Rule; Banner; Rule; SummaryHeader; PnlHeader; CurveHeader;
      RealismHeader; ClosingRule] /\
   exists pre, snd (run d) = pre ++ [ClosingRule]) /\
  (In ClosingRule (snd (run d)) <-> fst (run d) = Ok tt).
Proof.
  intros d. destruct (run_frame d) as (headers & Hf & Hstart & Hr).
  split; [exact Hstart |]. split.
  - intros E. rewrite E in Hr. subst headers. split; [exact Hf |].
    rewrite run_sections in *.
    destruct (exec (print_summary _ _ _ _ _ _) d) as [[[] | e] o1];
      [| discriminate E].
    destruct (exec (verify_pnl _ _) d) as [[[] | e] o2]; [| discriminate E].
    destruct (exec (verify_equity_curve _ _) d) as [[[] | e] o3];
      [| discriminate E].
    destruct (exec (realism_check _ _ _ _) d) as [[issues | e] o4];
      [| discriminate E].
    rewrite final_summary_exec. cbn [snd].
    eexists. rewrite !app_assoc. reflexivity.
  - split.
    + intros Hin.
      assert (In ClosingRule (filter is_frame_line (snd (run d)))) as Hin'
        by (apply filter_In; now split).
      rewrite Hf in Hin'. destruct (fst (run d)) as [[] | e]; [reflexivity |].
      exfalso. cbn [app In] in Hin'.
      destruct Hin' as [C | [C | [C | [C | C]]]]; try discriminate C.
      now apply Hr.
    + intros E. rewrite E in Hr. subst headers.
      assert (In ClosingRule (filter is_frame_line (snd (run d)))) as Hin
        by (rewrite Hf; cbn; auto 10).
      now apply filter_In in Hin.
Qed.

Lemma X1_report_frame_scenario_A :
  filter is_frame_line (snd (run scenario_A)) =
    [Rule; Banner; Rule; SummaryHeader; PnlHeader; CurveHeader;
     RealismHeader; ClosingRule] /\
  exists pre, snd (run scenario_A) = pre ++ [ClosingRule].
Proof.
  apply (proj1 (proj2 (X1_report_frame scenario_A))). vm_compute. reflexivity.
Defined.

(** ** The verdict of the P&L verification *)

Lemma emits_loop_check_trade : forall it vars,
  emits is_loop_line (check_trade it vars).
Proof. intros [i t] [e n]. unfold check_trade. emits_steps. Qed.

Lemma emits_loop_pnl_loop : forall ie ts, emits is_loop_line (pnl_loop ie ts).
Proof.
  intros. unfold pnl_loop. apply emits_for_each. intros.
  apply emits_loop_check_trade.
Qed.

Lemma filter_verdict_loop : forall lo,
  forallb is_loop_line lo = true -> filter is_verdict lo = [].
Proof.
  induction lo as [| l lo IH]; intros H; [reflexivity |].
  cbn [forallb] in H. apply andb_true_iff in H. destruct H as [Hl H].
  cbn [filter]. rewrite (IH H). now destruct l.
Qed.

Lemma length_filter_snd : forall (A B : Type) (f : B -> bool) (its : list (A * B)),
  length (filter (fun it => f (snd it)) its) = length (filter f (map snd its)).
Proof.
  intros A B f its. induction its as [| [a b] its IH]; [reflexivity |].
  cbn [filter map snd]. destruct (f b); cbn [length]; now rewrite IH.
Qed.

(** X2: a P&L verification that aborts prints no verdict, neither the
    all-verified line nor a count.  One that completes prints exactly one
    verdict, as its last line: all-verified when no mismatch block was
    printed, otherwise the count, which is the number of mismatch blocks
    printed above it and never more than [min 10 length], however many
    trades there are. *)
Theorem X2_pnl_verdict : forall ie ts d r out,
  exec (verify_pnl ie ts) d = (r, out) ->
  let n := length (filter is_mismatch out) in
  (forall e, r = Raise e -> filter is_verdict out = []) /\
  (r = Ok tt ->
   filter is_verdict out =
     [if (n =? 0)%nat then AllVerified else FoundMismatches n] /\
   (exists pre,
      out = pre ++ [if (n =? 0)%nat then AllVerified else FoundMismatches n]) /\
   (n <= Nat.min 10 (length ts))%nat).
Proof.
  intros ie ts d r out H n. split.
  - intros e ->. unfold verify_pnl in H.
    rewrite exec_bind, exec_print in H;
      [| first [ reflexivity | apply writer_print
               | intros _; solve_writer; destruct a; solve_writer;
                 match goal with |- writer (if ?b then _ else _) => destruct b end;
                 apply writer_print ] ..].
    rewrite exec_bind in H;
      [| apply writer_pnl_loop
       | intros [eq0 n0]; destruct (n0 =? 0)%nat; apply writer_print ].
    destruct (exec (pnl_loop ie ts) d) as [[[eq0 n0] | e'] lo] eqn:E.
    + destruct (n0 =? 0)%nat; rewrite exec_print in H; discriminate H.
    + inversion H; subst. cbn [app filter is_verdict].
      apply filter_verdict_loop.
      eapply emits_exec; [apply emits_loop_pnl_loop | exact E].
  - intros ->. apply verify_pnl_inv in H.
    destruct H as (equity & errors & lo & Hloop & Hout).
    apply pnl_loop_inv in Hloop.
    destruct Hloop as (_ & Hn & _ & Hm & _ & Hl).
    assert (filter is_mismatch out = filter is_mismatch lo) as Hmo.
    { rewrite Hout. cbn [filter is_mismatch]. rewrite filter_app.
      destruct (errors =? 0)%nat; cbn; now rewrite app_nil_r. }
    assert (n = errors) as En.
    { unfold n. rewrite Hmo, Hm, length_map, length_filter_snd.
      now rewrite map_snd_enumerate. }
    rewrite En. split; [| split].
    + rewrite Hout. cbn [filter is_verdict]. rewrite filter_app.
      rewrite (filter_verdict_loop lo Hl).
      now destruct (errors =? 0)%nat.
    + exists (PnlHeader :: lo). now rewrite Hout.
    + rewrite Hn, <- length_firstn. apply filter_length_le.
Qed.

Lemma X2_pnl_verdict_scenario_B :
  filter is_verdict (snd (exec (verify_pnl (Int 1000) [scenario_B_trade])
                            empty_document))
    = [FoundMismatches 1].
Proof.
  destruct (X2_pnl_verdict (Int 1000) [scenario_B_trade] empty_document (Ok tt)
              (snd (exec (verify_pnl (Int 1000) [scenario_B_trade])
                      empty_document)))
    as (_ & H).
  - vm_compute. reflexivity.
  - exact (proj1 (H eq_refl)).
Defined.

(** ** The detailed block of a trade *)

(** X3: an iteration that completes prints the two lines of the mismatch
    block when the trade is flagged, and then the five lines of the
    detailed block when the trade is one of the first three.  In the
    detailed block the marker after the reported P&L is a pass exactly when
    the trade is not flagged, the net P&L shown is the recomputed one, and
    the equity shown is the running equity after this trade. *)
Theorem X3_detailed_block : forall i t equity errors d equity' errors' out,
  exec (check_trade (i, t) (equity, errors)) d
    = (Ok (equity', errors'), out) ->
  length out = ((if flagged t then 2 else 0) + (if (i <? 3)%nat then 5 else 0))%nat /\
  (forall r ok, In (TradeReported r ok) out -> ok = negb (flagged t)) /\
  (forall raw f n, In (TradePnl raw f n) out ->
     exists net, recomputed_net_pnl t = Ok net /\ to_float net = Ok n) /\
  (forall e, In (TradeEquity e) out -> to_float equity' = Ok e) /\
  ((i < 3)%nat -> exists e, In (TradeEquity e) out).
Proof.
  intros i t equity errors d equity' errors' out H.
  apply exec_world in H; [| apply writer_check_trade].
  apply check_trade_inv in H.
  destruct H as (raw & net & dd & mis & det & Hraw & Hnet & Hadd & Hd & Hmis & Hdet & Hw).
  cbn [document stdout app] in Hw. inversion Hw as [Hout]. clear Hw.
  assert (recomputed_net_pnl t = Ok net) as Hrn
    by (unfold recomputed_net_pnl; rewrite Hraw; exact Hnet).
  assert (flagged t = negb (lt (abs dd) tolerance)) as Hf.
  { unfold flagged, recomputed_diff. rewrite Hrn. cbn [bind result_Monad].
    rewrite Hd. reflexivity. }
  rewrite Hf.
  destruct (lt (abs dd) tolerance) eqn:Elt; cbn [negb];
    destruct (i <? 3)%nat eqn:Ei.
  all: repeat match goal with
         | H : _ /\ _ |- _ => destruct H
         | H : exists _, _ |- _ => destruct H
         end; subst mis det.
  all: cbn [app length In].
  all: split; [reflexivity |].
  all: split; [| split; [| split]].
  all: try (intros; repeat match goal with
                      | H : _ \/ _ |- _ => destruct H
                      | H : False |- _ => destruct H
                      | H : _ = _ :> line |- _ => inversion H; subst; clear H
                      end; try congruence; eauto; fail).
  all: intros Hi; try (apply Nat.ltb_ge in Ei; lia).
  all: eexists; repeat first [left; reflexivity | right].
Qed.

Lemma X3_detailed_block_scenario_B :
  length [Mismatch 1; MismatchDetail 9.5 5 4.5; TradeHeader 1 "SELL";
          TradeSizes 1 100 110; TradePnl 10 0.5 9.5; TradeReported 5 false;
          TradeEquity 1009.5]
    = ((if flagged scenario_B_trade then 2 else 0) +
       (if (0 <? 3)%nat then 5 else 0))%nat.
Proof.
  refine (proj1 (X3_detailed_block 0 scenario_B_trade (Int 1000) 0
                   empty_document (Flt 1009.5) 1 _ _)).
  vm_compute. reflexivity.
Defined.

(** ** The equity shown for the first trades *)

Lemma check_trade_equity_line : forall i t equity errors w equity' errors' w',
  check_trade (i, t) (equity, errors) w = (Ok (equity', errors'), w') ->
  exists net out,
    recomputed_net_pnl t = Ok net /\ add equity net = Ok equity' /\
    w' = emit w out /\
    if (i <? 3)%nat
    then exists e, to_float equity' = Ok e /\
                   filter is_trade_equity out = [TradeEquity e]
    else filter is_trade_equity out = [].
Proof.
  intros i t equity errors w equity' errors' w' H.
  apply check_trade_inv in H.
  destruct H as (raw & net & dd & mis & det & Hraw & Hnet & Hadd & Hd & Hmis & Hdet & Hw).
  exists net, (mis ++ det).
  split; [unfold recomputed_net_pnl; rewrite Hraw; exact Hnet |].
  split; [exact Hadd |]. split; [exact Hw |].
  assert (filter is_trade_equity mis = []) as Em.
  { destruct (lt (abs dd) tolerance).
    - now destruct Hmis as [_ ->].
    - destruct Hmis as (_ & c & r & x & _ & _ & _ & ->). reflexivity. }
  rewrite filter_app, Em. cbn [app].
  destruct (i <? 3)%nat.
  - destruct Hdet as (s & en & ex & r & f & n & rr & e & _ & _ & _ & _ & _ & _ & _ & He & ->).
    now exists e.
  - now subst det.
Qed.

Lemma equity_lines_from : forall l n equity errors w equity' errors' w',
  for_each check_trade (combine (seq n (length l)) l) (equity, errors) w
    = (Ok (equity', errors'), w') ->
  exists out,
    w' = emit w out /\
    length (filter is_trade_equity out) = Nat.min (3 - n) (length l) /\
    forall j e,
      nth_error (filter is_trade_equity out) j = Some (TradeEquity e) ->
      exists equity_j,
        equity_after equity (firstn (S j) l) = Ok equity_j /\
        to_float equity_j = Ok e.
Proof.
  induction l as [| t l IH]; intros n equity errors w equity' errors' w' H.
  - cbn in H. inversion H; subst. exists []. rewrite world_eta.
    split; [reflexivity |]. split; [now rewrite Nat.min_0_r |].
    intros [| j] e C; discriminate C.
  - cbn [length seq combine] in H. apply for_each_cons_inv in H.
    destruct H as ([e1 n1] & w1 & Hstep & Hrest).
    apply check_trade_equity_line in Hstep.
    destruct Hstep as (net & o1 & Hn & Ha & Hw1 & Hline).
    apply IH in Hrest. destruct Hrest as (o2 & Hw2 & Hlen & Hnth).
    subst w1. rewrite emit_emit in Hw2.
    exists (o1 ++ o2). split; [exact Hw2 |]. rewrite filter_app.
    destruct (n <? 3)%nat eqn:En.
    + apply Nat.ltb_lt in En. destruct Hline as (e & He & ->).
      cbn [app length]. split; [rewrite Hlen; lia |].
      intros [| j] x C; cbn [nth_error] in C.
      * inversion C; subst x. exists e1. split; [| exact He].
        cbn [firstn]. now rewrite (equity_after_cons _ _ _ _ _ Hn Ha).
      * destruct (Hnth j x C) as (eq_j & E1 & E2). exists eq_j.
        split; [| exact E2].
        change (firstn (S (S j)) (t :: l)) with (t :: firstn (S j) l).
        now rewrite (equity_after_cons _ _ _ _ _ Hn Ha).
    + apply Nat.ltb_ge in En. rewrite Hline. cbn [app].
      assert (filter is_trade_equity o2 = []) as ->.
      { apply length_zero_iff_nil. rewrite Hlen. lia. }
      split; [cbn [length]; lia |].
      intros [| j] x C; discriminate C.
Qed.

(** X4: in a loop that completes, the equity lines of the detailed blocks
    are those of the first [min 3 length] trades, and the equity shown in
    the block of trade [j + 1] is the initial equity plus the net P&L of
    trades 1 to [j + 1], added in their order, converted to float. *)
Theorem X4_equity_shown : forall ie ts d equity errors out,
  exec (pnl_loop ie ts) d = (Ok (equity, errors), out) ->
  length (filter is_trade_equity out) = Nat.min 3 (length ts) /\
  forall j e,
    nth_error (filter is_trade_equity out) j = Some (TradeEquity e) ->
    exists equity_j,
      equity_after ie (firstn (S j) ts) = Ok equity_j /\
      to_float equity_j = Ok e.
Proof.
  intros ie ts d equity errors out H.
  apply exec_world in H; [| apply writer_pnl_loop].
  unfold pnl_loop, enumerate in H. apply equity_lines_from in H.
  destruct H as (o & Hw & Hlen & Hnth).
  cbn [document stdout app] in Hw. inversion Hw; subst o.
  rewrite length_firstn in Hlen.
  assert (length (filter is_trade_equity out) = Nat.min 3 (length ts)) as L
    by (rewrite Hlen; lia).
  split; [exact L |].
  intros j e C. destruct (Hnth j e C) as (eq_j & E1 & E2).
  exists eq_j. split; [| exact E2].
  assert (j < length (filter is_trade_equity out))%nat as Hj
    by (apply nth_error_Some; congruence).
  rewrite firstn_firstn in E1.
  now replace (Nat.min (S j) 10) with (S j) in E1 by lia.
Qed.

Lemma X4_equity_shown_scenario_A :
  exists equity_j,
    equity_after (Int 1000) (firstn 1 [scenario_A_trade]) = Ok equity_j /\
    to_float equity_j = Ok 1009.5%float.
Proof.
  refine (proj2 (X4_equity_shown (Int 1000) [scenario_A_trade] empty_document
                   (Flt 1009.5) 0%nat
                   [TradeHeader 1 "SELL"; TradeSizes 1 100 110;
                    TradePnl 10 0.5 9.5; TradeReported 9.5 true;
                    TradeEquity 1009.5] _) 0%nat 1009.5%float _).
  - vm_compute. reflexivity.
  - reflexivity.
Defined.

(** ** What the later sections look at *)

Lemma last_cons_default : forall (A : Type) (l : list A) (x : A),
  List.last (x :: l) x = List.last l x.
Proof. intros A [| y l] x; reflexivity. Qed.

(** X5: the equity curve verification reads the curve only through its
    number of points, its first point and its last point: two curves that
    agree on these give the same section, whatever lies between the end
    points. *)
Theorem X5_curve_end_points : forall data data' fe first rest rest',
  get (equityCurve data) [] = first :: rest ->
  get (equityCurve data') [] = first :: rest' ->
  length rest = length rest' ->
  List.last rest first = List.last rest' first ->
  forall w, verify_equity_curve data fe w = verify_equity_curve data' fe w.
Proof.
  intros data data' fe first rest rest' H1 H2 Hlen Hlast w.
  unfold verify_equity_curve. rewrite H1, H2. cbv zeta.
  rewrite !last_cons_default, Hlast. cbn [length]. now rewrite Hlen.
Qed.

Lemma X5_curve_end_points_sample :
  verify_equity_curve (curve_document (Int 1050) [Int 1000; Int 1; Int 1050])
    (Int 1050) (boot empty_document)
  = verify_equity_curve
      (curve_document (Int 1050) [Int 1000; Flt nan; Int 1050])
      (Int 1050) (boot empty_document).
Proof.
  apply (X5_curve_end_points _ _ (Int 1050) (Int 1000) [Int 1; Int 1050]
           [Flt nan; Int 1050]); reflexivity.
Defined.

(** X6: the realism checks read the trades only through their number and
    their fees: two trade sequences with the same fees, trade by trade,
    give the same realism section, whatever their prices, sizes, sides and
    reported P&L.  A P&L mismatch is therefore never a realism issue. *)
Theorem X6_realism_reads_fees : forall data tr ts ts' pf,
  map (fun t => get (fees t) (Int 0)) ts
    = map (fun t => get (fees t) (Int 0)) ts' ->
  realism_check data tr ts pf = realism_check data tr ts' pf.
Proof.
  intros data tr ts ts' pf H.
  assert (length ts = length ts') as L.
  { rewrite <- (length_map (fun t => get (fees t) (Int 0)) ts), H.
    apply length_map. }
  unfold realism_check, total_fees. now rewrite H, L.
Qed.

Lemma X6_realism_reads_fees_scenarios :
  realism_check scenario_A (Int 5) [scenario_A_trade]
    (mkPerformance (Some (Flt 0.6)) (Some (Flt 1.2)))
  = realism_check scenario_A (Int 5) [scenario_B_trade]
      (mkPerformance (Some (Flt 0.6)) (Some (Flt 1.2))).
Proof. apply X6_realism_reads_fees. reflexivity. Defined.

(** ** The list of issues *)

(** X7: the issues of a realism section that completes stand in the order
    of the checks, return, win rate, trades, drawdown, fees, with each kind
    at most once; the final summary never raises, and prints them in that
    order, one line each, between the issues header and the closing rule,
    or the all-checks-passed line when there is none. *)
Theorem X7_issues_in_check_order : forall data tr ts pf d issues out,
  exec (realism_check data tr ts pf) d = (Ok issues, out) ->
  StronglySorted Nat.lt (map issue_rank issues) /\
  forall d',
    exec (final_summary issues) d' =
    (Ok tt,
     match issues with
     | [] => [AllChecksPassed]
     | _ :: _ => IssuesFound :: map IssueLine issues
     end ++ [ClosingRule]).
Proof.
  intros data tr ts pf d issues out H. split; [| apply final_summary_exec].
  apply realism_check_inv in H.
  destruct H as (wr & total & v1 & v2 & v4 & fl & _ & _ & _ & _ & _ & _ & -> & _).
  destruct (gt (abs tr) (Int 100)), (lt wr (Int 20) || gt wr (Int 80)),
    (length ts =? 0)%nat, (gt (get (maxDrawdown data) (Int 0)) (Int 50)),
    (eq total (Int 0)); cbn [app map issue_rank];
    repeat (constructor; try lia).
Qed.

Lemma X7_issues_in_check_order_scenario_C :
  StronglySorted Nat.lt
    (map issue_rank [UnusualWinRate 90; NoTrades; ExtremeDrawdown 60; NoFees]).
Proof.
  refine (proj1 (X7_issues_in_check_order scenario_C (Int 0) []
                   (mkPerformance (Some (Flt 0.9)) None) scenario_C _
                   [RealismHeader; ReturnReasonable 0] _)).
  vm_compute. reflexivity.
Defined.

(** X8: a realism section that completes has the no-trades issue exactly
    when the trades sequence is empty, and then it has the no-fees issue
    as well: the sum of no fees is zero. *)
Theorem X8_no_trades_no_fees : forall data tr ts pf d issues out,
  exec (realism_check data tr ts pf) d = (Ok issues, out) ->
  (In NoTrades issues <-> ts = []) /\
  (In NoTrades issues -> In NoFees issues).
Proof.
  intros data tr ts pf d issues out H.
  apply realism_check_inv in H.
  destruct H as (wr & total & v1 & v2 & v4 & fl & _ & Ht & _ & _ & _ & _ & -> & _).
  assert (In NoTrades
            ((if gt (abs tr) (Int 100) then [ExtremeReturn v1] else []) ++
             (if lt wr (Int 20) || gt wr (Int 80) then [UnusualWinRate v2] else []) ++
             (if (length ts =? 0)%nat then [NoTrades] else []) ++
             (if gt (get (maxDrawdown data) (Int 0)) (Int 50)
              then [ExtremeDrawdown v4] else []) ++
             (if eq total (Int 0) then [NoFees] else []))
          <-> ts = []) as Hiff.
  { rewrite !in_app_iff.
    destruct (gt (abs tr) (Int 100)), (lt wr (Int 20) || gt wr (Int 80)),
      (gt (get (maxDrawdown data) (Int 0)) (Int 50)), (eq total (Int 0)),
      ts as [| t ts']; cbn [length Nat.eqb In]; split; intros C;
      repeat match goal with
             | H : _ \/ _ |- _ => destruct H
             | H : False |- _ => destruct H
             end; try discriminate; auto 10. }
  split; [exact Hiff |].
  intros Hin. apply Hiff in Hin. subst ts. cbn in Ht. inversion Ht; subst total.
  rewrite !in_app_iff. do 4 right. now left.
Qed.

Lemma X8_no_trades_no_fees_scenario_C :
  In NoTrades [UnusualWinRate 90; NoTrades; ExtremeDrawdown 60; NoFees] <->
  @nil Trade = [].
Proof.
  refine (proj1 (X8_no_trades_no_fees scenario_C (Int 0) []
                   (mkPerformance (Some (Flt 0.9)) None) scenario_C _
                   [RealismHeader; ReturnReasonable 0] _)).
  vm_compute. reflexivity.
Defined.

(** ** Integer data *)

Lemma Prim2SF_tolerance :
  Prim2SF 0.01 = S754_finite false 5764607523034235 (-59).
Proof. vm_compute. reflexivity. Qed.

(** A non-negative int is below the tolerance only when it is zero. *)
Lemma lt_int_tolerance : forall z, 0 <= z -> lt (Int z) tolerance = (z =? 0).
Proof.
  intros z Hz. unfold lt, tolerance, compare, compare_int_float.
  rewrite Prim2SF_tolerance.
  change (0 <=? -59) with false. cbv iota.
  change (2 ^ (- -59)) with 576460752303423488.
  destruct (Z.compare_spec (z * 576460752303423488) 5764607523034235);
    destruct (Z.eqb_spec z 0); try reflexivity; lia.
Qed.

(** X9: on a trade whose prices, size, fees and reported P&L are all ints,
    the recomputation is exact integer arithmetic and never raises, and
    the tolerance plays no part: the trade is flagged exactly when the
    recomputed net P&L differs from the reported one. *)
Theorem X9_int_trades_are_exact : forall sd en ex sz fe pn,
  recomputed_net_pnl (int_trade sd en ex sz fe pn)
    = Ok (Int (int_net_pnl sd en ex sz fe)) /\
  flagged (int_trade sd en ex sz fe pn)
    = negb (int_net_pnl sd en ex sz fe =? pn).
Proof.
  intros sd en ex sz fe pn.
  assert (recomputed_net_pnl (int_trade sd en ex sz fe pn)
          = Ok (Int (int_net_pnl sd en ex sz fe))) as E.
  { unfold recomputed_net_pnl, raw_pnl, net_pnl, int_trade, int_net_pnl.
    cbn [side entryPrice exitPrice size fees get].
    now destruct (String.eqb (get sd "BUY"%string) "SELL"). }
  split; [exact E |].
  unfold flagged, recomputed_diff. rewrite E.
  cbn [bind ret result_Monad int_trade pnl get sub arith abs].
  rewrite lt_int_tolerance by apply Z.abs_nonneg.
  destruct (Z.eqb_spec (Z.abs (int_net_pnl sd en ex sz fe - pn)) 0);
    destruct (Z.eqb_spec (int_net_pnl sd en ex sz fe) pn);
    try reflexivity; lia.
Qed.

(** X10: when the last point of the curve and the final equity are both
    ints, a curve verification that completes prints the match line
    exactly when the two are equal. *)
Theorem X10_int_curve_is_exact : forall data final d out first rest last,
  exec (verify_equity_curve data (Int final)) d = (Ok tt, out) ->
  get (equityCurve data) [] = first :: rest ->
  List.last (first :: rest) first = Int last ->
  (In CurveMatches out <-> last = final) /\
  (In CurveMismatch out <-> last <> final).
Proof.
  intros data final d out first rest last H Hc Hl.
  apply verify_equity_curve_inv in H. rewrite Hc in H. cbv zeta in H.
  destruct H as (more & -> & H).
  destruct (H eq_refl) as (vs & ve & vx & diff & _ & _ & _ & Hd & ->).
  rewrite Hl in Hd. cbn in Hd. inversion Hd; subst diff.
  cbn [abs]. rewrite lt_int_tolerance by apply Z.abs_nonneg.
  destruct (Z.eqb_spec (Z.abs (last - final)) 0) as [E | E].
  - assert (last = final) by lia. split; split; intros C.
    + assumption.
    + cbn. auto 10.
    + cbn in C. repeat destruct C as [C | C]; try discriminate C; destruct C.
    + contradiction.
  - assert (last <> final) by lia. split; split; intros C.
    + cbn in C. repeat destruct C as [C | C]; try discriminate C; destruct C.
    + contradiction.
    + assumption.
    + cbn. auto 10.
Qed.

Lemma X10_int_curve_is_exact_scenario_A :
  In CurveMatches
    [CurveHeader; CurvePoints 2; CurveStart 1000; CurveEnd 1050;
     CurveExpected 1050; CurveMatches] <-> 1050 = 1050.
Proof.
  refine (proj1 (X10_int_curve_is_exact scenario_A 1050 scenario_A _
                   (Int 1000) [Int 1050] 1050 _ _ _)).
  - vm_compute. reflexivity.
  - reflexivity.
  - reflexivity.
Defined.

(** ** The return check *)

(** [abs(x) > n] is [x > n or x < -n], for an int or a float [x]; on a NaN
    both sides are false. *)
Lemma gt_abs : forall x n,
  0 <= n -> gt (abs x) (Int n) = gt x (Int n) || lt x (Int (- n)).
Proof.
  intros [z | f] n Hn.
  - unfold gt, lt, abs, compare.
    destruct (Z.compare_spec (Z.abs z) n), (Z.compare_spec z n),
      (Z.compare_spec z (- n)); try reflexivity; lia.
  - unfold gt, lt, abs, compare, compare_int_float. rewrite abs_spec.
    destruct (Prim2SF f) as [s | s | | s m e]; cbn [SFabs option_map CompOpp].
    + destruct (Z.compare_spec n 0), (Z.compare_spec (- n) 0);
        try reflexivity; lia.
    + now destruct s.
    + reflexivity.
    + destruct (0 <=? e) eqn:Ee.
      * apply Z.leb_le in Ee.
        assert (0 < 2 ^ e) as P by (apply Z.pow_pos_nonneg; lia).
        assert (0 < Zpos m * 2 ^ e) as X by (apply Z.mul_pos_pos; lia).
        assert (Zneg m * 2 ^ e = - (Zpos m * 2 ^ e)) as N by
          (rewrite <- Pos2Z.opp_pos; apply Z.mul_opp_l).
        destruct s; rewrite ?N;
          destruct (Z.compare_spec n (Zpos m * 2 ^ e)),
            (Z.compare_spec (- n) (Zpos m * 2 ^ e)),
            (Z.compare_spec n (- (Zpos m * 2 ^ e))),
            (Z.compare_spec (- n) (- (Zpos m * 2 ^ e)));
          try reflexivity; lia.
      * apply Z.leb_gt in Ee.
        assert (0 < 2 ^ (- e)) as P by (apply Z.pow_pos_nonneg; lia).
        assert (0 <= n * 2 ^ (- e)) as X by (apply Z.mul_nonneg_nonneg; lia).
        assert (- n * 2 ^ (- e) = - (n * 2 ^ (- e))) as N by
          (apply Z.mul_opp_l).
        rewrite ?N.
        destruct s;
          destruct (Z.compare_spec (n * 2 ^ (- e)) (Zpos m)),
            (Z.compare_spec (- (n * 2 ^ (- e))) (Zpos m)),
            (Z.compare_spec (n * 2 ^ (- e)) (Zneg m)),
            (Z.compare_spec (- (n * 2 ^ (- e))) (Zneg m));
          try reflexivity; lia.
Qed.

(** X11: the return check raises its issue for a gain above 100 percent
    and for a loss below -100 percent alike, and for nothing else: a
    realism section that completes has the extreme-return issue exactly
    when [totalReturnPct > 100] or [totalReturnPct < -100]. *)
Theorem X11_return_check_two_sided : forall data tr ts pf d issues out,
  exec (realism_check data tr ts pf) d = (Ok issues, out) ->
  ((exists v, In (ExtremeReturn v) issues) <->
   gt tr (Int 100) || lt tr (Int (-100)) = true).
Proof.
  intros data tr ts pf d issues out H.
  apply realism_check_inv in H.
  destruct H as (wr & total & v1 & v2 & v4 & fl & _ & _ & _ & _ & _ & _ & -> & _).
  pose proof (gt_abs tr 100 ltac:(lia)) as G. cbn [Z.opp] in G.
  rewrite <- G. clear G.
  destruct (gt (abs tr) (Int 100)).
  - split; [reflexivity |]. intros _. exists v1. now left.
  - split; [| discriminate]. intros [v C]. exfalso. cbn [app] in C.
    rewrite !in_app_iff in C.
    destruct (lt wr (Int 20) || gt wr (Int 80)), (length ts =? 0)%nat,
      (gt (get (maxDrawdown data) (Int 0)) (Int 50)), (eq total (Int 0));
      cbn [In] in C;
      repeat match goal with
             | H : _ \/ _ |- _ => destruct H
             | H : False |- _ => destruct H
             end; discriminate.
Qed.

Lemma X11_return_check_two_sided_loss :
  (exists v, In (ExtremeReturn v)
               [ExtremeReturn (-150); UnusualWinRate 0; NoTrades; NoFees]) <->
  gt (Flt (-150)) (Int 100) || lt (Flt (-150)) (Int (-100)) = true.
Proof.
  refine (X11_return_check_two_sided empty_document (Flt (-150)) []
            no_performance empty_document _ [RealismHeader; DrawdownReasonable 0] _).
  vm_compute. reflexivity.
Defined.

(** ** NaN in the document *)

Lemma nan_unordered : forall x y,
  is_nan x = true -> lt x y = false /\ gt x y = false /\ eq x y = false.
Proof.
  intros x y H. unfold lt, gt, eq.
  assert (compare x y = None) as -> by (apply compare_None; now left).
  now repeat split.
Qed.

Ltac no_issue C :=
  repeat match type of C with
         | context [if ?b then _ else _] => destruct b
         end;
  cbn [app In] in C;
  repeat match goal with
         | H : _ \/ _ |- _ => destruct H
         | H : False |- _ => destruct H
         end; discriminate.

(** X12: a figure that is a NaN passes its realism check: a realism
    section that completes never has the extreme-return issue for a NaN
    return, the extreme-drawdown issue for a NaN drawdown, or the win-rate
    issue for a win rate whose percentage is a NaN. *)
Theorem X12_nan_passes_realism : forall data tr ts pf d issues out,
  exec (realism_check data tr ts pf) d = (Ok issues, out) ->
  (is_nan tr = true -> forall v, ~ In (ExtremeReturn v) issues) /\
  (is_nan (get (maxDrawdown data) (Int 0)) = true ->
   forall v, ~ In (ExtremeDrawdown v) issues) /\
  (forall wr, mul (get (winRate pf) (Int 0)) (Int 100) = Ok wr ->
   is_nan wr = true -> forall v, ~ In (UnusualWinRate v) issues).
Proof.
  intros data tr ts pf d issues out H.
  apply realism_check_inv in H.
  destruct H as (wr & total & v1 & v2 & v4 & fl & Hwr & _ & _ & _ & _ & _ & -> & _).
  split; [| split].
  - intros N v C.
    destruct (nan_unordered (abs tr) (Int 100)) as (_ & G & _);
      [now rewrite is_nan_abs |].
    rewrite G in C. no_issue C.
  - intros N v C.
    destruct (nan_unordered _ (Int 50) N) as (_ & G & _).
    rewrite G in C. no_issue C.
  - intros wr' Hwr' N v C. rewrite Hwr in Hwr'. inversion Hwr'; subst wr'.
    destruct (nan_unordered wr (Int 20) N) as (L & _ & _).
    destruct (nan_unordered wr (Int 80) N) as (_ & G & _).
    rewrite L, G in C. cbn [orb] in C. no_issue C.
Qed.

Lemma X12_nan_passes_realism_nan_return :
  ~ In (ExtremeReturn nan) [UnusualWinRate 0; NoTrades; NoFees].
Proof.
  refine (proj1 (X12_nan_passes_realism empty_document (Flt nan) []
                   no_performance empty_document _
                   [RealismHeader; ReturnReasonable nan; DrawdownReasonable 0]
                   _) _ nan).
  - vm_compute. reflexivity.
  - reflexivity.
Defined.

(** X13: the curve comparison goes the other way: when the difference
    between the last point of the curve and the final equity is a NaN, a
    curve verification that completes prints the mismatch line. *)
Theorem X13_nan_curve_mismatch : forall data fe d out first rest diff,
  exec (verify_equity_curve data fe) d = (Ok tt, out) ->
  get (equityCurve data) [] = first :: rest ->
  sub (List.last (first :: rest) first) fe = Ok diff ->
  is_nan diff = true ->
  In CurveMismatch out /\ ~ In CurveMatches out.
Proof.
  intros data fe d out first rest diff H Hc Hs N.
  apply verify_equity_curve_inv in H. rewrite Hc in H. cbv zeta in H.
  destruct H as (more & -> & H).
  destruct (H eq_refl) as (vs & ve & vx & diff' & _ & _ & _ & Hd & ->).
  rewrite Hs in Hd. inversion Hd; subst diff'.
  destruct (nan_unordered (abs diff) tolerance) as (L & _);
    [now rewrite is_nan_abs |].
  rewrite L. split; [cbn; auto 10 |].
  intros C. cbn in C. repeat destruct C as [C | C]; try discriminate C; destruct C.
Qed.

Lemma X13_nan_curve_mismatch_sample :
  In CurveMismatch
    [CurveHeader; CurvePoints 2; CurveStart 1000; CurveEnd nan;
     CurveExpected 1050; CurveMismatch] /\
  ~ In CurveMatches
    [CurveHeader; CurvePoints 2; CurveStart 1000; CurveEnd nan;
     CurveExpected 1050; CurveMismatch].
Proof.
  refine (X13_nan_curve_mismatch
            (curve_document (Int 1050) [Int 1000; Flt nan]) (Int 1050)
            empty_document _ (Int 1000) [Flt nan] (Flt nan) _ _ _ _).
  - vm_compute. reflexivity.
  - reflexivity.
  - vm_compute. reflexivity.
  - reflexivity.
Defined.

(** ** Fees that cancel *)

Lemma sum_ints : forall fs a,
  fold_left (fun acc x => a <- acc ;; add a x) (map Int fs) (Ok (Int a))
  = Ok (Int (fold_left Z.add fs a)).
Proof.
  induction fs as [| f fs IH]; intros a; [reflexivity |].
  cbn [map fold_left]. cbn [bind result_Monad add arith]. apply IH.
Qed.

(** X14: when the fees of the trades are ints, their total is their exact
    sum, and a realism section that completes has the no-fees issue exactly
    when that sum is zero: fees and rebates that cancel are reported as no
    fees. *)
Theorem X14_fees_that_cancel : forall data tr ts pf d issues out fs,
  exec (realism_check data tr ts pf) d = (Ok issues, out) ->
  map (fun t => get (fees t) (Int 0)) ts = map Int fs ->
  total_fees ts = Ok (Int (fold_left Z.add fs 0)) /\
  (In NoFees issues <-> fold_left Z.add fs 0 = 0).
Proof.
  intros data tr ts pf d issues out fs H Hf.
  assert (total_fees ts = Ok (Int (fold_left Z.add fs 0))) as T
    by (unfold total_fees, sum; rewrite Hf; apply sum_ints).
  split; [exact T |].
  apply realism_check_inv in H.
  destruct H as (wr & total & v1 & v2 & v4 & fl & _ & Ht & _ & _ & _ & _ & -> & _).
  rewrite T in Ht. inversion Ht; subst total.
  assert (eq (Int (fold_left Z.add fs 0)) (Int 0) = (fold_left Z.add fs 0 =? 0))
    as -> by (unfold eq, compare;
              destruct (Z.compare_spec (fold_left Z.add fs 0) 0),
                (Z.eqb_spec (fold_left Z.add fs 0) 0); try reflexivity; lia).
  destruct (Z.eqb_spec (fold_left Z.add fs 0) 0) as [E | E].
  - split; [intros _; exact E |]. intros _.
    rewrite !in_app_iff. do 4 right. now left.
  - split; [| intros C; contradiction]. intros C. exfalso. no_issue C.
Qed.

Lemma X14_fees_that_cancel_rebate :
  In NoFees [UnusualWinRate 0; NoFees] <-> fold_left Z.add [5; -5] 0 = 0.
Proof.
  refine (proj2 (X14_fees_that_cancel empty_document (Int 0)
                   [int_trade None 100 110 1 5 0; int_trade None 100 110 1 (-5) 0]
                   no_performance empty_document _
                   [RealismHeader; ReturnReasonable 0; TradesGenerated 2;
                    DrawdownReasonable 0]
                   [5; -5] _ _)).
  - vm_compute. reflexivity.
  - reflexivity.
Defined.

(** ** The figures of the summary and of the checks *)

Lemma print_summary_inv : forall data ie fe tr ts pf d out,
  exec (print_summary data ie fe tr ts pf) d = (Ok tt, out) ->
  exists v1 v2 v3 wr v4 v5 v6,
    to_float ie = Ok v1 /\ to_float fe = Ok v2 /\ to_float tr = Ok v3 /\
    mul (get (winRate pf) (Int 0)) (Int 100) = Ok wr /\
    to_float wr = Ok v4 /\
    to_float (get (maxDrawdown data) (Int 0)) = Ok v5 /\
    to_float (get (sharpe pf) (Int 0)) = Ok v6 /\
    out = [SummaryHeader; InitialEquity v1; FinalEquity v2; TotalReturn v3;
           TotalTrades (length ts); WinRate v4; MaxDrawdown v5;
           SharpeRatio v6].
Proof.
  intros data ie fe tr ts pf d out H. unfold exec, print_summary in H.
  run_in H.
  cbn [app stdout] in H. inversion H; subst; clear H.
  eexists _, _, _, _, _, _, _.
  repeat (split; [first [reflexivity | eassumption] |]). reflexivity.
Qed.

Lemma emits_plain_check_trade : forall it vars,
  emits shows_no_figure (check_trade it vars).
Proof. intros [i t] [e n]. unfold check_trade. emits_steps. Qed.

Lemma emits_plain_verify_pnl : forall ie ts,
  emits shows_no_figure (verify_pnl ie ts).
Proof.
  intros. unfold verify_pnl. apply emits_bind; [now apply emits_print |].
  intros _. apply emits_bind.
  - unfold pnl_loop. apply emits_for_each. intros. apply emits_plain_check_trade.
  - intros [e n]. emits_steps.
Qed.

Lemma emits_plain_verify_equity_curve : forall data fe,
  emits shows_no_figure (verify_equity_curve data fe).
Proof. intros. unfold verify_equity_curve. emits_steps. Qed.

Lemma figures_none : forall out,
  forallb shows_no_figure out = true ->
  flat_map (fun l => match shown l with Some p => [p] | None => [] end) out
  = [].
Proof.
  induction out as [| l out IH]; [reflexivity |].
  cbn [forallb flat_map]. unfold shows_no_figure at 1.
  destruct (shown l); [discriminate |]. exact IH.
Qed.

(** X15: the report is consistent with itself.  In a run that completes,
    each of the three figures that the summary prints and a realism check
    tests, the total return, the win rate and the maximum drawdown, is
    shown by exactly two lines, the one of the summary and the one of its
    check (the pass line, or else the issue in the final summary), and the
    two show the same value. *)
Theorem X15_figures_agree : forall d,
  fst (run d) = Ok tt ->
  forall k, exists v, values_of k (snd (run d)) = [v; v].
Proof.
  intros d E k. rewrite run_sections in *.
  destruct (exec (print_summary _ _ _ _ _ _) d) as [[[] | e] o1] eqn:E1;
    [| discriminate E].
  destruct (exec (verify_pnl _ _) d) as [[[] | e] o2] eqn:E2;
    [| discriminate E].
  destruct (exec (verify_equity_curve _ _) d) as [[[] | e] o3] eqn:E3;
    [| discriminate E].
  destruct (exec (realism_check _ _ _ _) d) as [[issues | e] o4] eqn:E4;
    [| discriminate E].
  rewrite final_summary_exec. cbn [snd]. clear E.
  apply print_summary_inv in E1.
  destruct E1 as (a1 & a2 & a3 & wr & a4 & a5 & a6 & _ & _ & T3 & Hwr & T4 & T5 & _ & ->).
  pose proof (figures_none _
    (emits_exec _ _ _ _ _ _ (emits_plain_verify_pnl _ _) E2)) as F2.
  pose proof (figures_none _
    (emits_exec _ _ _ _ _ _ (emits_plain_verify_equity_curve _ _) E3)) as F3.
  apply realism_check_inv in E4.
  destruct E4 as (wr' & total & v1 & v2 & v4 & fl & Hwr' & _ & T1 & T2 & T4' & Hfl & -> & ->).
  rewrite Hwr in Hwr'. inversion Hwr'; subst wr'.
  rewrite T3 in T1. inversion T1; subst v1.
  rewrite T4 in T2. inversion T2; subst v2.
  rewrite T5 in T4'. inversion T4'; subst v4.
  unfold values_of, figures. rewrite !flat_map_app, F2, F3.
  destruct (eq total (Int 0)) eqn:Et;
    [| destruct (Hfl eq_refl) as (v5 & _ & ->)];
    repeat match goal with
           | |- context [if ?b then _ else _] =>
               match type of b with bool => destruct b end
           end;
    destruct k; eexists; reflexivity.
Qed.

Lemma X15_figures_agree_scenario_A :
  exists v, values_of TheWinRate (snd (run scenario_A)) = [v; v].
Proof.
  refine (X15_figures_agree scenario_A _ TheWinRate).
  vm_compute. reflexivity.
Defined.
